(** * Fork activation and configuration compatibility (package [params])

    A shallow embedding of the chain-configuration code: the activation
    predicate [isForked], the fork-order validator [CheckConfigForkOrder],
    the compatibility checker [checkCompatible] / [CheckCompatible] and the
    rewind computation [newCompatError].

    Data model.
    - [*big.Int] is an optional unbounded integer: [option Z], [None] being
      the nil pointer.  Nothing in the code restricts a [*big.Int] field to
      non-negative values, so neither does the model.
    - [uint64] is a [Z] in the range [0, 2^64); arithmetic on it wraps.
    - [error] and [*ConfigCompatError] results are options, [None] being nil.
    - the unbounded [for] loop of [CheckCompatible] is a fuel-indexed
      function; running out of fuel is a result of its own, distinct from
      every result of the loop. *)

From Stdlib Require Import ZArith List String Bool Lia.
Import ListNotations.
Local Open Scope string_scope.
Local Open Scope Z_scope.

(** ** Integers *)

(** A [*big.Int]. *)
Definition bigInt := option Z.

Definition uint64_modulus : Z := 2 ^ 64.

(** Wrap-around of [uint64] arithmetic. *)
Definition wrap64 (x : Z) : Z := x mod uint64_modulus.

(** [x.Cmp(y)]: -1, 0 or +1. *)
Definition Cmp (x y : Z) : Z :=
  match x ?= y with
  | Lt => -1
  | Eq => 0
  | Gt => 1
  end.

(** [x.Sign()]. *)
Definition Sign (x : Z) : Z := Z.sgn x.

(** [x.Uint64()]: the low 64 bits of the magnitude of [x]. *)
Definition Uint64 (x : Z) : Z := Z.abs x mod uint64_modulus.

(** [common.Hash], 32 bytes read as one number. *)
Definition Hash := Z.

(** ** ChainConfig *)

Record ChainConfig := mkChainConfig {
  ChainID : bigInt;
  HomesteadBlock : bigInt;
  DAOForkBlock : bigInt;
  DAOForkSupport : bool;
  EIP150Block : bigInt;
  EIP150Hash : Hash;
  EIP155Block : bigInt;
  EIP158Block : bigInt;
  ByzantiumBlock : bigInt;
  ConstantinopleBlock : bigInt;
  PetersburgBlock : bigInt;
  IstanbulBlock : bigInt;
  MuirGlacierBlock : bigInt;
  ApricotPhase1BlockTimestamp : bigInt;
  ApricotPhase2BlockTimestamp : bigInt;
  ApricotPhase3BlockTimestamp : bigInt;
  ApricotPhase4BlockTimestamp : bigInt
}.

(** Field updates, used to state "all other fields equal". *)
Definition withChainID (v : bigInt) (c : ChainConfig) : ChainConfig :=
  mkChainConfig v (HomesteadBlock c) (DAOForkBlock c) (DAOForkSupport c)
    (EIP150Block c) (EIP150Hash c) (EIP155Block c) (EIP158Block c)
    (ByzantiumBlock c) (ConstantinopleBlock c) (PetersburgBlock c)
    (IstanbulBlock c) (MuirGlacierBlock c)
    (ApricotPhase1BlockTimestamp c) (ApricotPhase2BlockTimestamp c)
    (ApricotPhase3BlockTimestamp c) (ApricotPhase4BlockTimestamp c).

Definition withHomesteadBlock (v : bigInt) (c : ChainConfig) : ChainConfig :=
  mkChainConfig (ChainID c) v (DAOForkBlock c) (DAOForkSupport c)
    (EIP150Block c) (EIP150Hash c) (EIP155Block c) (EIP158Block c)
    (ByzantiumBlock c) (ConstantinopleBlock c) (PetersburgBlock c)
    (IstanbulBlock c) (MuirGlacierBlock c)
    (ApricotPhase1BlockTimestamp c) (ApricotPhase2BlockTimestamp c)
    (ApricotPhase3BlockTimestamp c) (ApricotPhase4BlockTimestamp c).

Definition withPetersburgBlock (v : bigInt) (c : ChainConfig) : ChainConfig :=
  mkChainConfig (ChainID c) (HomesteadBlock c) (DAOForkBlock c)
    (DAOForkSupport c) (EIP150Block c) (EIP150Hash c) (EIP155Block c)
    (EIP158Block c) (ByzantiumBlock c) (ConstantinopleBlock c) v
    (IstanbulBlock c) (MuirGlacierBlock c)
    (ApricotPhase1BlockTimestamp c) (ApricotPhase2BlockTimestamp c)
    (ApricotPhase3BlockTimestamp c) (ApricotPhase4BlockTimestamp c).

(** [TestChainConfig], positional as in the source: the DAO fork block is
    nil, every other fork point is 0. *)
Definition TestChainConfig : ChainConfig :=
  mkChainConfig (Some 1) (Some 0) None false (Some 0) 0 (Some 0) (Some 0)
    (Some 0) (Some 0) (Some 0) (Some 0) (Some 0)
    (Some 0) (Some 0) (Some 0) (Some 0).

(** [FlareChainConfig]; the timestamps are
    [time.Date(2000, January, 1, ...).Unix()] and
    [time.Date(2100, January, 1, ...).Unix()]. *)
Definition FlareChainConfig : ChainConfig :=
  mkChainConfig (Some 14) (Some 0) (Some 0) true (Some 0)
    0x2086799aeebeae135c246c65021c82b4e15a2c451340993aacfd2751886514f0
    (Some 0) (Some 0) (Some 0) (Some 0) (Some 0) (Some 0) (Some 0)
    (Some 946684800) (Some 946684800) (Some 946684800) (Some 4102444800).

(** ** Activation predicate *)

(** [isForked]: whether a fork scheduled at block [s] is active at [head]. *)
Definition isForked (s head : bigInt) : bool :=
  match s, head with
  | Some s', Some head' => Cmp s' head' <=? 0
  | _, _ => false
  end.

Definition configNumEqual (x y : bigInt) : bool :=
  match x with
  | None => match y with None => true | Some _ => false end
  | Some x' =>
      match y with
      | None => false
      | Some y' => Cmp x' y' =? 0
      end
  end.

(** [isForkIncompatible]: a fork scheduled at [s1] cannot be rescheduled to
    [s2] because [head] is already past it. *)
Definition isForkIncompatible (s1 s2 head : bigInt) : bool :=
  (isForked s1 head || isForked s2 head) && negb (configNumEqual s1 s2).

Definition IsDAOFork (c : ChainConfig) (num : bigInt) : bool :=
  isForked (DAOForkBlock c) num.

Definition IsEIP158 (c : ChainConfig) (num : bigInt) : bool :=
  isForked (EIP158Block c) num.

(** ** ConfigCompatError and the rewind computation *)

Record ConfigCompatError := mkConfigCompatError {
  What : string;
  StoredConfig : bigInt;
  NewConfig : bigInt;
  RewindTo : Z
}.

(** The [switch] of [newCompatError] that picks [rew]. *)
Definition rewindBlock (storedblock newblock : bigInt) : bigInt :=
  match storedblock with
  | None => newblock
  | Some s =>
      match newblock with
      | None => storedblock
      | Some n => if Cmp s n <? 0 then storedblock else newblock
      end
  end.

Definition newCompatError (what : string) (storedblock newblock : bigInt)
  : ConfigCompatError :=
  let rew := rewindBlock storedblock newblock in
  let err := mkConfigCompatError what storedblock newblock 0 in
  match rew with
  | Some r =>
      if Sign r >? 0
      then mkConfigCompatError (What err) (StoredConfig err) (NewConfig err)
             (wrap64 (Uint64 r - 1))
      else err
  | None => err
  end.

(** ** Compatibility checker *)

Definition checkCompatible (c newcfg : ChainConfig) (head : bigInt)
  : option ConfigCompatError :=
  if isForkIncompatible (HomesteadBlock c) (HomesteadBlock newcfg) head then
    Some (newCompatError "Homestead fork block"
            (HomesteadBlock c) (HomesteadBlock newcfg))
  else if isForkIncompatible (DAOForkBlock c) (DAOForkBlock newcfg) head then
    Some (newCompatError "DAO fork block"
            (DAOForkBlock c) (DAOForkBlock newcfg))
  else if IsDAOFork c head
          && negb (Bool.eqb (DAOForkSupport c) (DAOForkSupport newcfg)) then
    Some (newCompatError "DAO fork support flag"
            (DAOForkBlock c) (DAOForkBlock newcfg))
  else if isForkIncompatible (EIP150Block c) (EIP150Block newcfg) head then
    Some (newCompatError "EIP150 fork block"
            (EIP150Block c) (EIP150Block newcfg))
  else if isForkIncompatible (EIP155Block c) (EIP155Block newcfg) head then
    Some (newCompatError "EIP155 fork block"
            (EIP155Block c) (EIP155Block newcfg))
  else if isForkIncompatible (EIP158Block c) (EIP158Block newcfg) head then
    Some (newCompatError "EIP158 fork block"
            (EIP158Block c) (EIP158Block newcfg))
  else if IsEIP158 c head
          && negb (configNumEqual (ChainID c) (ChainID newcfg)) then
    Some (newCompatError "EIP158 chain ID"
            (EIP158Block c) (EIP158Block newcfg))
  else if isForkIncompatible (ByzantiumBlock c) (ByzantiumBlock newcfg) head
  then
    Some (newCompatError "Byzantium fork block"
            (ByzantiumBlock c) (ByzantiumBlock newcfg))
  else if isForkIncompatible (ConstantinopleBlock c)
            (ConstantinopleBlock newcfg) head then
    Some (newCompatError "Constantinople fork block"
            (ConstantinopleBlock c) (ConstantinopleBlock newcfg))
  else if (* the nested [if] of the source: an error only when both hold,
             otherwise control falls through to the Istanbul test *)
          isForkIncompatible (PetersburgBlock c) (PetersburgBlock newcfg) head
          && isForkIncompatible (ConstantinopleBlock c)
               (PetersburgBlock newcfg) head then
    Some (newCompatError "Petersburg fork block"
            (PetersburgBlock c) (PetersburgBlock newcfg))
  else if isForkIncompatible (IstanbulBlock c) (IstanbulBlock newcfg) head then
    Some (newCompatError "Istanbul fork block"
            (IstanbulBlock c) (IstanbulBlock newcfg))
  else if isForkIncompatible (MuirGlacierBlock c) (MuirGlacierBlock newcfg)
            head then
    Some (newCompatError "Muir Glacier fork block"
            (MuirGlacierBlock c) (MuirGlacierBlock newcfg))
  else None.

(** The [for] loop of [CheckCompatible], started with [bhead] and [lasterr];
    [bhead] is a [big.Int] that only ever holds a [uint64], set by
    [SetUint64], so the pass gets [Some bhead].
    The outer option is [None] only when the fuel runs out; [Some r] is the
    value of [lasterr] at the [break]. *)
Fixpoint CheckCompatible_loop (fuel : nat) (c newcfg : ChainConfig)
  (bhead : Z) (lasterr : option ConfigCompatError)
  : option (option ConfigCompatError) :=
  match fuel with
  | O => None
  | S fuel' =>
      match checkCompatible c newcfg (Some bhead) with
      | None => Some lasterr
      | Some err =>
          if match lasterr with
             | Some le => RewindTo err =? RewindTo le
             | None => false
             end
          then Some lasterr
          else CheckCompatible_loop fuel' c newcfg (RewindTo err) (Some err)
      end
  end.

(** [CheckCompatible]: the loop from [bhead = height] with [lasterr = nil].
    [height + 2] iterations are always enough
    (see [CheckCompatible_terminates]). *)
Definition CheckCompatible (c newcfg : ChainConfig) (height : Z)
  : option (option ConfigCompatError) :=
  CheckCompatible_loop (S (S (Z.to_nat height))) c newcfg height None.

(** ** Fork order validator *)

Record fork := mkFork {
  name : string;
  block : bigInt;
  optional : bool
}.

(** The zero value [fork{}]. *)
Definition noFork : fork := mkFork "" None false.

Inductive ForkOrderError :=
| errNonGenesisForkByHeight
| errNotEnabled (lastName curName : string) (curBlock : Z)
| errEnabledAt (lastName : string) (lastBlock : Z)
               (curName : string) (curBlock : Z).

(** The height-axis slice of [CheckConfigForkOrder]. *)
Definition heightForks (c : ChainConfig) : list fork :=
  [ mkFork "homesteadBlock" (HomesteadBlock c) false;
    mkFork "daoForkBlock" (DAOForkBlock c) true;
    mkFork "eip150Block" (EIP150Block c) false;
    mkFork "eip155Block" (EIP155Block c) false;
    mkFork "eip158Block" (EIP158Block c) false;
    mkFork "byzantiumBlock" (ByzantiumBlock c) false;
    mkFork "constantinopleBlock" (ConstantinopleBlock c) false;
    mkFork "petersburgBlock" (PetersburgBlock c) false;
    mkFork "istanbulBlock" (IstanbulBlock c) false;
    mkFork "muirGlacierBlock" (MuirGlacierBlock c) true ].

(** The timestamp-axis slice of [CheckConfigForkOrder]. *)
Definition timestampForks (c : ChainConfig) : list fork :=
  [ mkFork "apricotPhase1BlockTimestamp" (ApricotPhase1BlockTimestamp c) false;
    mkFork "apricotPhase2BlockTimestamp" (ApricotPhase2BlockTimestamp c) false;
    mkFork "apricotPhase3BlockTimestamp" (ApricotPhase3BlockTimestamp c) false;
    mkFork "apricotPhase4BlockTimestamp" (ApricotPhase4BlockTimestamp c) false ].

(** [cur.block != nil && common.Big0.Cmp(cur.block) != 0]. *)
Definition nonGenesis (cur : fork) : bool :=
  match block cur with
  | Some b => negb (Cmp 0 b =? 0)
  | None => false
  end.

(** The ordering test both loops apply under [lastFork.name != ""]. *)
Definition orderCheck (lastFork cur : fork) : option ForkOrderError :=
  if negb (name lastFork =? "")%string then
    match block lastFork, block cur with
    | None, Some cb => Some (errNotEnabled (name lastFork) (name cur) cb)
    | Some lb, Some cb =>
        if Cmp lb cb >? 0
        then Some (errEnabledAt (name lastFork) lb (name cur) cb)
        else None
    | _, None => None
    end
  else None.

(** [if !cur.optional || cur.block != nil { lastFork = cur }]. *)
Definition advance (lastFork cur : fork) : fork :=
  if negb (optional cur) || match block cur with Some _ => true | None => false end
  then cur
  else lastFork.

(** One [for ... range] loop of [CheckConfigForkOrder].  The two loops of
    the source have the same body, except that the first one starts each
    iteration with the genesis-only test; [genesisOnly] selects it. *)
Fixpoint forkOrderLoop (genesisOnly : bool) (lastFork : fork) (l : list fork)
  : option ForkOrderError :=
  match l with
  | [] => None
  | cur :: rest =>
      if genesisOnly && nonGenesis cur then Some errNonGenesisForkByHeight
      else
        match orderCheck lastFork cur with
        | Some e => Some e
        | None => forkOrderLoop genesisOnly (advance lastFork cur) rest
        end
  end.

Definition CheckConfigForkOrder (c : ChainConfig) : option ForkOrderError :=
  match forkOrderLoop true noFork (heightForks c) with
  | Some e => Some e
  | None => forkOrderLoop false noFork (timestampForks c)
  end.

(** ** Activation of the individual forks *)

Definition IsHomestead (c : ChainConfig) (num : bigInt) : bool :=
  isForked (HomesteadBlock c) num.

Definition IsEIP150 (c : ChainConfig) (num : bigInt) : bool :=
  isForked (EIP150Block c) num.

Definition IsEIP155 (c : ChainConfig) (num : bigInt) : bool :=
  isForked (EIP155Block c) num.

Definition IsByzantium (c : ChainConfig) (num : bigInt) : bool :=
  isForked (ByzantiumBlock c) num.

Definition IsConstantinople (c : ChainConfig) (num : bigInt) : bool :=
  isForked (ConstantinopleBlock c) num.

Definition IsMuirGlacier (c : ChainConfig) (num : bigInt) : bool :=
  isForked (MuirGlacierBlock c) num.

(** [IsPetersburg]: the Petersburg block is reached, or it is nil and
    Constantinople is active. *)
Definition IsPetersburg (c : ChainConfig) (num : bigInt) : bool :=
  isForked (PetersburgBlock c) num
  || match PetersburgBlock c with None => true | Some _ => false end
     && isForked (ConstantinopleBlock c) num.

Definition IsIstanbul (c : ChainConfig) (num : bigInt) : bool :=
  isForked (IstanbulBlock c) num.

Definition IsApricotPhase1 (c : ChainConfig) (blockTimestamp : bigInt) : bool :=
  isForked (ApricotPhase1BlockTimestamp c) blockTimestamp.

Definition IsApricotPhase2 (c : ChainConfig) (blockTimestamp : bigInt) : bool :=
  isForked (ApricotPhase2BlockTimestamp c) blockTimestamp.

Definition IsApricotPhase3 (c : ChainConfig) (blockTimestamp : bigInt) : bool :=
  isForked (ApricotPhase3BlockTimestamp c) blockTimestamp.

Definition IsApricotPhase4 (c : ChainConfig) (blockTimestamp : bigInt) : bool :=
  isForked (ApricotPhase4BlockTimestamp c) blockTimestamp.

(** ** Rules *)

Record Rules := mkRules {
  RulesChainID : bigInt;
  RulesIsHomestead : bool;
  RulesIsEIP150 : bool;
  RulesIsEIP155 : bool;
  RulesIsEIP158 : bool;
  RulesIsByzantium : bool;
  RulesIsConstantinople : bool;
  RulesIsPetersburg : bool;
  RulesIsIstanbul : bool;
  RulesIsApricotPhase1 : bool;
  RulesIsApricotPhase2 : bool;
  RulesIsApricotPhase3 : bool;
  RulesIsApricotPhase4 : bool
}.

(** [rules]: a nil chain ID is replaced by [new(big.Int)], zero; the Apricot
    fields keep the zero value [false] of the struct literal. *)
Definition rules (c : ChainConfig) (num : bigInt) : Rules :=
  let chainID :=
    match ChainID c with
    | None => 0
    | Some id => id
    end in
  mkRules (Some chainID)
    (IsHomestead c num) (IsEIP150 c num) (IsEIP155 c num) (IsEIP158 c num)
    (IsByzantium c num) (IsConstantinople c num) (IsPetersburg c num)
    (IsIstanbul c num)
    false false false false.

Definition AvalancheRules (c : ChainConfig) (blockNum blockTimestamp : bigInt)
  : Rules :=
  let r := rules c blockNum in
  mkRules (RulesChainID r)
    (RulesIsHomestead r) (RulesIsEIP150 r) (RulesIsEIP155 r) (RulesIsEIP158 r)
    (RulesIsByzantium r) (RulesIsConstantinople r) (RulesIsPetersburg r)
    (RulesIsIstanbul r)
    (IsApricotPhase1 c blockTimestamp) (IsApricotPhase2 c blockTimestamp)
    (IsApricotPhase3 c blockTimestamp) (IsApricotPhase4 c blockTimestamp).

(** A change of the Apricot timestamps and of the EIP150 hash only. *)
Definition withApricotTimestamps (t1 t2 t3 t4 : bigInt) (hash : Hash)
           (c : ChainConfig) : ChainConfig :=
  mkChainConfig (ChainID c) (HomesteadBlock c) (DAOForkBlock c)
    (DAOForkSupport c) (EIP150Block c) hash (EIP155Block c)
    (EIP158Block c) (ByzantiumBlock c) (ConstantinopleBlock c)
    (PetersburgBlock c) (IstanbulBlock c) (MuirGlacierBlock c) t1 t2 t3 t4.

(** ** Predicates used to state the properties *)

(** The choice of the rewind block in the spec's words: the lower of the two
    scheduled values, an absent value on one side leaving the other side's
    value to govern. *)
Definition lowerScheduled (stored new : bigInt) : bigInt :=
  match stored, new with
  | None, _ => new
  | _, None => stored
  | Some s, Some n => Some (Z.min s n)
  end.

(** After the first iteration [bhead] is the rewind target of [lasterr]. *)
Definition headOfLast (bhead : Z) (lasterr : option ConfigCompatError) : Prop :=
  forall le, lasterr = Some le -> RewindTo le = bhead.

(** Why the loop stopped with [r] when started at [height] with no error:
    no mismatch was found, or a pass at the returned rewind target asks for
    that same target again. *)
Definition exitReason (c newcfg : ChainConfig) (height : Z)
           (r : option ConfigCompatError) : Prop :=
  match r with
  | None => checkCompatible c newcfg (Some height) = None
  | Some e =>
      match checkCompatible c newcfg (Some (RewindTo e)) with
      | None => True
      | Some err => RewindTo err = RewindTo e
      end
  end.

(** [advance] moves to [cur] exactly when [cur] is mandatory or present. *)
Definition effective (f : fork) : bool :=
  negb (optional f) || match block f with Some _ => true | None => false end.

Definition named (f : fork) : Prop := name f <> "".

(** [A] comes before [B] in the list [axis]. *)
Definition before (axis : list fork) (A B : fork) : Prop :=
  exists i j : nat,
    (i < j)%nat /\ nth_error axis i = Some A /\ nth_error axis j = Some B.

(** Wherever [B] is active, [A] is active. *)
Definition activeBefore (A B : fork) : Prop :=
  forall X : bigInt,
    isForked (block B) X = true -> isForked (block A) X = true.

(** Some height-axis fork is present with a value other than 0. *)
Definition hasNonGenesisHeightFork (c : ChainConfig) : Prop :=
  exists f v, In f (heightForks c) /\ block f = Some v /\ v <> 0.

(** The timestamp walk in the spec's words: a later phase is present only
    if the one before it is present and not later than it. *)
Definition inOrder (a b : bigInt) : bool :=
  match a, b with
  | None, Some _ => false
  | Some x, Some y => x <=? y
  | _, None => true
  end.

Definition timestampsInOrder (c : ChainConfig) : bool :=
  inOrder (ApricotPhase1BlockTimestamp c) (ApricotPhase2BlockTimestamp c)
  && inOrder (ApricotPhase2BlockTimestamp c) (ApricotPhase3BlockTimestamp c)
  && inOrder (ApricotPhase3BlockTimestamp c) (ApricotPhase4BlockTimestamp c).

(** Every fork flag set in [r] is set in [r']. *)
Definition RulesLe (r r' : Rules) : Prop :=
  (RulesIsHomestead r = true -> RulesIsHomestead r' = true) /\
  (RulesIsEIP150 r = true -> RulesIsEIP150 r' = true) /\
  (RulesIsEIP155 r = true -> RulesIsEIP155 r' = true) /\
  (RulesIsEIP158 r = true -> RulesIsEIP158 r' = true) /\
  (RulesIsByzantium r = true -> RulesIsByzantium r' = true) /\
  (RulesIsConstantinople r = true -> RulesIsConstantinople r' = true) /\
  (RulesIsPetersburg r = true -> RulesIsPetersburg r' = true) /\
  (RulesIsIstanbul r = true -> RulesIsIstanbul r' = true) /\
  (RulesIsApricotPhase1 r = true -> RulesIsApricotPhase1 r' = true) /\
  (RulesIsApricotPhase2 r = true -> RulesIsApricotPhase2 r' = true) /\
  (RulesIsApricotPhase3 r = true -> RulesIsApricotPhase3 r' = true) /\
  (RulesIsApricotPhase4 r = true -> RulesIsApricotPhase4 r' = true).

(** Each fork flag of [r] comes with the flags of the forks before it on
    its axis. *)
Definition RulesNested (r : Rules) : Prop :=
  (RulesIsEIP150 r = true -> RulesIsHomestead r = true) /\
  (RulesIsEIP155 r = true -> RulesIsEIP150 r = true) /\
  (RulesIsEIP158 r = true -> RulesIsEIP155 r = true) /\
  (RulesIsByzantium r = true -> RulesIsEIP158 r = true) /\
  (RulesIsConstantinople r = true -> RulesIsByzantium r = true) /\
  (RulesIsPetersburg r = true -> RulesIsConstantinople r = true) /\
  (RulesIsIstanbul r = true -> RulesIsPetersburg r = true) /\
  (RulesIsApricotPhase2 r = true -> RulesIsApricotPhase1 r = true) /\
  (RulesIsApricotPhase3 r = true -> RulesIsApricotPhase2 r = true) /\
  (RulesIsApricotPhase4 r = true -> RulesIsApricotPhase3 r = true).

(** Homestead left nil, EIP150 at 0, EIP155 at 5. *)
Definition skippedHomesteadConfig : ChainConfig :=
  mkChainConfig (Some 1) None None false (Some 0) 0 (Some 5) None
    None None None None None None None None None.

(** ** Sanity checks on concrete inputs *)

Example TestChainConfig_accepted : CheckConfigForkOrder TestChainConfig = None.
Proof. reflexivity. Qed.

Example FlareChainConfig_accepted : CheckConfigForkOrder FlareChainConfig = None.
Proof. reflexivity. Qed.

Example newCompatError_9 :
  RewindTo (newCompatError "EIP150 fork block" (Some 10) (Some 20)) = 9.
Proof. reflexivity. Qed.

Example CheckCompatible_lowest_conflict :
  CheckCompatible
    (withHomesteadBlock (Some 30) (mkChainConfig None None None false (Some 10)
       0 None None None None None None None None None None None))
    (withHomesteadBlock (Some 25) (mkChainConfig None None None false (Some 20)
       0 None None None None None None None None None None None))
    25
  = Some (Some (mkConfigCompatError "EIP150 fork block" (Some 10) (Some 20) 9)).
Proof. vm_compute. reflexivity. Qed.

(** ** Basic facts about comparisons *)

Lemma Cmp_le (x y : Z) : (Cmp x y <=? 0) = (x <=? y).
Proof.
  unfold Cmp. destruct (Z.compare_spec x y); simpl; symmetry;
    [apply Z.leb_le | apply Z.leb_le | apply Z.leb_gt]; lia.
Qed.

Lemma Cmp_eq (x y : Z) : (Cmp x y =? 0) = (x =? y).
Proof.
  unfold Cmp. destruct (Z.compare_spec x y); simpl; symmetry;
    [apply Z.eqb_eq | apply Z.eqb_neq | apply Z.eqb_neq]; lia.
Qed.

Lemma Cmp_lt (x y : Z) : (Cmp x y <? 0) = (x <? y).
Proof.
  unfold Cmp. destruct (Z.compare_spec x y); simpl; symmetry;
    [apply Z.ltb_ge | apply Z.ltb_lt | apply Z.ltb_ge]; lia.
Qed.

Lemma Cmp_gt (x y : Z) : (Cmp x y >? 0) = (y <? x).
Proof.
  unfold Cmp. destruct (Z.compare_spec x y); simpl; symmetry;
    [apply Z.ltb_ge | apply Z.ltb_ge | apply Z.ltb_lt]; lia.
Qed.

Lemma isForked_Some (s h : Z) : isForked (Some s) (Some h) = (s <=? h).
Proof. apply Cmp_le. Qed.

Lemma isForked_nil_l (h : bigInt) : isForked None h = false.
Proof. reflexivity. Qed.

Lemma isForked_nil_r (s : bigInt) : isForked s None = false.
Proof. destruct s; reflexivity. Qed.

Lemma configNumEqual_refl (x : bigInt) : configNumEqual x x = true.
Proof.
  destruct x as [x|]; simpl; [|reflexivity].
  rewrite Cmp_eq. apply Z.eqb_refl.
Qed.

Lemma isForkIncompatible_refl (s head : bigInt) : isForkIncompatible s s head = false.
Proof.
  unfold isForkIncompatible. rewrite configNumEqual_refl.
  apply andb_false_r.
Qed.

Lemma isForkIncompatible_forked (s1 s2 head : bigInt) :
  isForkIncompatible s1 s2 head = true ->
  isForked s1 head || isForked s2 head = true.
Proof.
  unfold isForkIncompatible. intros H.
  apply andb_true_iff in H. tauto.
Qed.

(** ** The activation predicate *)

(** C4.  [isForked s ref] is false when [s] or [ref] is nil, and otherwise
    it is true exactly when [s <= ref]. *)
Theorem isForked_correct :
  forall s ref : bigInt,
    (s = None \/ ref = None -> isForked s ref = false) /\
    (forall s' ref', s = Some s' -> ref = Some ref' ->
       (isForked s ref = true <-> s' <= ref')).
Proof.
  intros s ref. split.
  - intros [-> | ->]; [apply isForked_nil_l | apply isForked_nil_r].
  - intros s' ref' -> ->. rewrite isForked_Some. apply Z.leb_le.
Qed.

Lemma isForked_correct_witness :
  isForked None (Some 7) = false /\
  isForked (Some 3) None = false /\
  (isForked (Some 3) (Some 7) = true <-> 3 <= 7).
Proof.
  split; [|split].
  - apply (proj1 (isForked_correct None (Some 7))). left. reflexivity.
  - apply (proj1 (isForked_correct (Some 3) None)). right. reflexivity.
  - apply (proj2 (isForked_correct (Some 3) (Some 7)) 3 7); reflexivity.
Defined.

(** ** Self-compatibility *)

Lemma checkCompatible_self (cfg : ChainConfig) (head : bigInt) :
  checkCompatible cfg cfg head = None.
Proof.
  unfold checkCompatible.
  rewrite !isForkIncompatible_refl, configNumEqual_refl, eqb_reflx.
  rewrite !andb_false_r. reflexivity.
Qed.

(** C5.  A schedule is compatible with itself: [CheckCompatible] applied to
    the same configuration twice returns nil at every height (and the loop
    does return: the result is not the out-of-fuel value). *)
Theorem CheckCompatible_self :
  forall (cfg : ChainConfig) (h : Z), CheckCompatible cfg cfg h = Some None.
Proof.
  intros cfg h. unfold CheckCompatible.
  cbn [CheckCompatible_loop]. rewrite checkCompatible_self. reflexivity.
Qed.

(** ** The rewind computation *)

Lemma What_newCompatError what s n : What (newCompatError what s n) = what.
Proof.
  unfold newCompatError.
  destruct (rewindBlock s n) as [r|]; [destruct (Sign r >? 0)|]; reflexivity.
Qed.

Lemma StoredConfig_newCompatError what s n :
  StoredConfig (newCompatError what s n) = s.
Proof.
  unfold newCompatError.
  destruct (rewindBlock s n) as [r|]; [destruct (Sign r >? 0)|]; reflexivity.
Qed.

Lemma NewConfig_newCompatError what s n :
  NewConfig (newCompatError what s n) = n.
Proof.
  unfold newCompatError.
  destruct (rewindBlock s n) as [r|]; [destruct (Sign r >? 0)|]; reflexivity.
Qed.

Lemma rewindBlock_lowerScheduled (s n : bigInt) :
  rewindBlock s n = lowerScheduled s n.
Proof.
  destruct s as [s|], n as [n|]; simpl; try reflexivity.
  rewrite Cmp_lt. destruct (Z.ltb_spec s n); f_equal; lia.
Qed.

Lemma Uint64_small (r : Z) : 0 <= r < uint64_modulus -> Uint64 r = r.
Proof.
  intros H. unfold Uint64. rewrite Z.abs_eq by lia. apply Z.mod_small, H.
Qed.

(** [newCompatError] on its own, for a chosen value that a [uint64] holds. *)
Lemma RewindTo_newCompatError what (s n : bigInt) (v : Z) :
  rewindBlock s n = Some v -> v < uint64_modulus ->
  RewindTo (newCompatError what s n) = Z.max 0 (v - 1).
Proof.
  intros Hrew Hv. unfold newCompatError. rewrite Hrew.
  unfold Sign. destruct (Z.gtb_spec (Z.sgn v) 0) as [Hs|Hs]; simpl.
  - assert (0 < v) by (apply Z.sgn_pos_iff; lia).
    rewrite Uint64_small by lia. unfold wrap64.
    rewrite Z.mod_small by lia. lia.
  - assert (v <= 0) by (destruct v; simpl in *; lia). lia.
Qed.

(** When one of the two schedules is active at [h], a value is chosen and it
    is at most [h]. *)
Lemma rewindBlock_forked (s n : bigInt) (h : Z) :
  isForked s (Some h) || isForked n (Some h) = true ->
  exists v, rewindBlock s n = Some v /\ v <= h.
Proof.
  intros H. rewrite rewindBlock_lowerScheduled.
  destruct s as [s|], n as [n|]; simpl in H |- *;
    rewrite ?Cmp_le, ?orb_false_r in H; try discriminate.
  - exists (Z.min s n). split; [reflexivity|].
    apply orb_true_iff in H. rewrite !Z.leb_le in H. lia.
  - exists s. apply Z.leb_le in H. auto.
  - exists n. apply Z.leb_le in H. auto.
Qed.

(** ** Inversion of [checkCompatible] *)

(** Every error of [checkCompatible] is built by [newCompatError] from a pair
    of blocks of which one is active at [head]. *)
Lemma checkCompatible_inv (c newcfg : ChainConfig) (head : bigInt)
      (e : ConfigCompatError) :
  checkCompatible c newcfg head = Some e ->
  exists what s n,
    e = newCompatError what s n /\
    isForked s head || isForked n head = true.
Proof.
  unfold checkCompatible, IsDAOFork, IsEIP158. intros H.
  repeat match type of H with
  | (if ?b then _ else _) = Some _ =>
      let Hb := fresh "Hb" in
      destruct b eqn:Hb;
      [ injection H as <-; do 3 eexists; split; [reflexivity|];
        repeat match goal with
        | Hx : _ && _ = true |- _ => apply andb_true_iff in Hx; destruct Hx
        end;
        first [ apply isForkIncompatible_forked; eassumption
              | apply orb_true_iff; left; eassumption ]
      | clear Hb ]
  end.
  discriminate.
Qed.

(** A reported mismatch at a [uint64] head: the chosen block exists, is at
    most the head, and fixes [RewindTo]. *)
Lemma checkCompatible_chosen (c newcfg : ChainConfig) (h : Z)
      (e : ConfigCompatError) :
  0 <= h < uint64_modulus ->
  checkCompatible c newcfg (Some h) = Some e ->
  exists what s n v,
    e = newCompatError what s n /\
    rewindBlock s n = Some v /\ v <= h /\
    RewindTo e = Z.max 0 (v - 1).
Proof.
  intros Hh He.
  destruct (checkCompatible_inv _ _ _ _ He) as (what & s & n & -> & Hf).
  destruct (rewindBlock_forked _ _ _ Hf) as (v & Hv & Hle).
  exists what, s, n, v. repeat split; try assumption.
  apply RewindTo_newCompatError; [exact Hv | lia].
Qed.

(** C3.  For every mismatch that [checkCompatible] reports at a [uint64]
    head, the block chosen by [newCompatError] is the lower of the stored
    and the new scheduled value (an absent stored value leaves the new value
    to govern, an absent new value the stored one), and the error's
    [RewindTo] is [max 0 (chosen - 1)]; a chosen value of 0 gives 0. *)
Theorem newCompatError_rewind :
  forall (c newcfg : ChainConfig) (h : Z) (e : ConfigCompatError),
    0 <= h < uint64_modulus ->
    checkCompatible c newcfg (Some h) = Some e ->
    e = newCompatError (What e) (StoredConfig e) (NewConfig e) /\
    exists v,
      rewindBlock (StoredConfig e) (NewConfig e) = Some v /\
      lowerScheduled (StoredConfig e) (NewConfig e) = Some v /\
      RewindTo e = Z.max 0 (v - 1) /\
      (v = 0 -> RewindTo e = 0).
Proof.
  intros c newcfg h e Hh He.
  destruct (checkCompatible_chosen _ _ _ _ Hh He)
    as (what & s & n & v & -> & Hv & Hle & Hr).
  rewrite What_newCompatError, StoredConfig_newCompatError,
    NewConfig_newCompatError.
  split; [reflexivity|].
  exists v. split; [exact Hv|]. split.
  - rewrite <- rewindBlock_lowerScheduled. exact Hv.
  - split; [exact Hr|]. intros ->. rewrite Hr. reflexivity.
Qed.

Lemma newCompatError_rewind_witness :
  let stored := withHomesteadBlock (Some 30) TestChainConfig in
  let new := withHomesteadBlock (Some 25) TestChainConfig in
  let e := mkConfigCompatError "Homestead fork block" (Some 30) (Some 25) 24 in
  checkCompatible stored new (Some 40) = Some e /\
  exists v,
    rewindBlock (StoredConfig e) (NewConfig e) = Some v /\
    lowerScheduled (StoredConfig e) (NewConfig e) = Some v /\
    RewindTo e = Z.max 0 (v - 1) /\
    (v = 0 -> RewindTo e = 0).
Proof.
  split; [reflexivity|].
  refine (proj2 (newCompatError_rewind
            (withHomesteadBlock (Some 30) TestChainConfig)
            (withHomesteadBlock (Some 25) TestChainConfig) 40
            (mkConfigCompatError "Homestead fork block" (Some 30) (Some 25) 24)
            _ _)).
  - unfold uint64_modulus. simpl. lia.
  - reflexivity.
Defined.

(** ** Bounds on the rewind target *)

(** One pass at a [uint64] head never asks to rewind above that head. *)
Lemma checkCompatible_RewindTo (c newcfg : ChainConfig) (h : Z)
      (e : ConfigCompatError) :
  0 <= h < uint64_modulus ->
  checkCompatible c newcfg (Some h) = Some e ->
  RewindTo e = 0 \/ 0 < RewindTo e < h.
Proof.
  intros Hh He.
  destruct (checkCompatible_chosen _ _ _ _ Hh He)
    as (what & s & n & v & _ & _ & Hle & Hr).
  lia.
Qed.

(** ** The rewind loop *)

Lemma CheckCompatible_loop_fuel (c newcfg : ChainConfig) :
  forall (fuel : nat) (bhead : Z) (lasterr : option ConfigCompatError),
    0 <= bhead < uint64_modulus ->
    headOfLast bhead lasterr ->
    (Z.to_nat bhead + match lasterr with Some _ => 1 | None => 2 end <= fuel)%nat ->
    exists r, CheckCompatible_loop fuel c newcfg bhead lasterr = Some r.
Proof.
  induction fuel as [|fuel IH]; intros bhead lasterr Hb Hinv Hfuel.
  - destruct lasterr; lia.
  - cbn [CheckCompatible_loop].
    destruct (checkCompatible c newcfg (Some bhead)) as [err|] eqn:He;
      [|eauto].
    pose proof (checkCompatible_RewindTo _ _ _ _ Hb He) as Hr.
    destruct lasterr as [le|].
    + destruct (Z.eqb_spec (RewindTo err) (RewindTo le)) as [Heq|Hne];
        [eauto|].
      rewrite (Hinv le eq_refl) in Hne.
      apply IH; [lia | intros ? [= <-]; reflexivity | lia].
    + apply IH; [lia | intros ? [= <-]; reflexivity | lia].
Qed.

Lemma CheckCompatible_loop_mono (c newcfg : ChainConfig) :
  forall (fuel fuel' : nat) (bhead : Z) (lasterr r : option ConfigCompatError),
    (fuel <= fuel')%nat ->
    CheckCompatible_loop fuel c newcfg bhead lasterr = Some r ->
    CheckCompatible_loop fuel' c newcfg bhead lasterr = Some r.
Proof.
  induction fuel as [|fuel IH]; intros fuel' bhead lasterr r Hle H;
    [discriminate|].
  destruct fuel' as [|fuel']; [lia|].
  cbn [CheckCompatible_loop] in H |- *.
  destruct (checkCompatible c newcfg (Some bhead)) as [err|]; [|exact H].
  destruct (match lasterr with
            | Some le => RewindTo err =? RewindTo le
            | None => false
            end); [exact H|].
  apply IH with (fuel' := fuel') in H; [exact H | lia].
Qed.

Lemma CheckCompatible_loop_exit (c newcfg : ChainConfig) :
  forall (fuel : nat) (bhead : Z) (lasterr r : option ConfigCompatError),
    headOfLast bhead lasterr ->
    CheckCompatible_loop fuel c newcfg bhead lasterr = Some r ->
    (r = None -> lasterr = None) /\ exitReason c newcfg bhead r.
Proof.
  induction fuel as [|fuel IH]; intros bhead lasterr r Hinv H;
    [discriminate|].
  cbn [CheckCompatible_loop] in H.
  destruct (checkCompatible c newcfg (Some bhead)) as [err|] eqn:He.
  - destruct lasterr as [le|].
    + pose proof (Hinv le eq_refl) as Hle.
      destruct (Z.eqb_spec (RewindTo err) (RewindTo le)) as [Heq|Hne].
      * injection H as <-. split; [discriminate|].
        unfold exitReason. rewrite Hle, He. congruence.
      * apply IH in H; [|intros ? [= <-]; reflexivity].
        destruct H as [Hnil Hexit]. destruct r as [e|].
        -- split; [discriminate | exact Hexit].
        -- specialize (Hnil eq_refl). discriminate.
    + apply IH in H; [|intros ? [= <-]; reflexivity].
      destruct H as [Hnil Hexit]. destruct r as [e|].
      * split; [discriminate | exact Hexit].
      * specialize (Hnil eq_refl). discriminate.
  - injection H as <-. split; [tauto|].
    destruct lasterr as [le|]; unfold exitReason.
    + rewrite (Hinv le eq_refl), He. exact I.
    + exact He.
Qed.

Lemma CheckCompatible_loop_RewindTo (c newcfg : ChainConfig) (height : Z) :
  forall (fuel : nat) (bhead : Z) (lasterr : option ConfigCompatError)
         (e : ConfigCompatError),
    0 <= bhead < uint64_modulus -> bhead <= height ->
    (forall le, lasterr = Some le ->
                RewindTo le = 0 \/ 0 < RewindTo le < height) ->
    CheckCompatible_loop fuel c newcfg bhead lasterr = Some (Some e) ->
    RewindTo e = 0 \/ 0 < RewindTo e < height.
Proof.
  induction fuel as [|fuel IH]; intros bhead lasterr e Hb Hle Hlast H;
    [discriminate|].
  cbn [CheckCompatible_loop] in H.
  destruct (checkCompatible c newcfg (Some bhead)) as [err|] eqn:He.
  - pose proof (checkCompatible_RewindTo _ _ _ _ Hb He) as Hr.
    destruct (match lasterr with
              | Some le => RewindTo err =? RewindTo le
              | None => false
              end).
    + injection H as ->. apply Hlast. reflexivity.
    + apply IH in H; [exact H | lia | lia |].
      intros ? [= <-]. lia.
  - injection H as ->. apply Hlast. reflexivity.
Qed.

(** C9.  The rewind search of [CheckCompatible] terminates for every pair of
    configurations and every [uint64] starting height: [height + 2]
    iterations give a result, more fuel gives the same result, and the loop
    stopped because no mismatch was found or because the returned rewind
    target is stable. *)
Theorem CheckCompatible_terminates :
  forall (c newcfg : ChainConfig) (height : Z),
    0 <= height < uint64_modulus ->
    exists r,
      CheckCompatible c newcfg height = Some r /\
      (forall fuel, (Z.to_nat height + 2 <= fuel)%nat ->
         CheckCompatible_loop fuel c newcfg height None = Some r) /\
      exitReason c newcfg height r.
Proof.
  intros c newcfg height Hh. unfold CheckCompatible.
  destruct (CheckCompatible_loop_fuel c newcfg (S (S (Z.to_nat height)))
              height None Hh) as [r Hr];
    [intros ? [=] | lia |].
  exists r. split; [exact Hr|]. split.
  - intros fuel Hfuel.
    apply CheckCompatible_loop_mono with (fuel := S (S (Z.to_nat height)));
      [lia | exact Hr].
  - apply (CheckCompatible_loop_exit c newcfg (S (S (Z.to_nat height)))
             height None r);
      [intros ? [=] | exact Hr].
Qed.

Lemma CheckCompatible_terminates_witness :
  exists r,
    CheckCompatible (withHomesteadBlock (Some 30) TestChainConfig)
      (withHomesteadBlock (Some 25) TestChainConfig) 40 = Some r /\
    (forall fuel, (Z.to_nat 40 + 2 <= fuel)%nat ->
       CheckCompatible_loop fuel (withHomesteadBlock (Some 30) TestChainConfig)
         (withHomesteadBlock (Some 25) TestChainConfig) 40 None = Some r) /\
    exitReason (withHomesteadBlock (Some 30) TestChainConfig)
      (withHomesteadBlock (Some 25) TestChainConfig) 40 r.
Proof.
  apply (CheckCompatible_terminates
           (withHomesteadBlock (Some 30) TestChainConfig)
           (withHomesteadBlock (Some 25) TestChainConfig) 40).
  unfold uint64_modulus. simpl. lia.
Defined.

(** C10.  An error returned by [CheckCompatible] for a [uint64] height has a
    [RewindTo] that is 0 or strictly below that height. *)
Theorem CheckCompatible_RewindTo :
  forall (c newcfg : ChainConfig) (height : Z) (e : ConfigCompatError),
    0 <= height < uint64_modulus ->
    CheckCompatible c newcfg height = Some (Some e) ->
    RewindTo e = 0 \/ 0 < RewindTo e < height.
Proof.
  intros c newcfg height e Hh H. unfold CheckCompatible in H.
  apply (CheckCompatible_loop_RewindTo c newcfg height
           (S (S (Z.to_nat height))) height None e);
    [exact Hh | lia | intros ? [=] | exact H].
Qed.

Lemma CheckCompatible_RewindTo_witness :
  let e := mkConfigCompatError "Homestead fork block" (Some 30) (Some 25) 24 in
  CheckCompatible (withHomesteadBlock (Some 30) TestChainConfig)
    (withHomesteadBlock (Some 25) TestChainConfig) 40 = Some (Some e) /\
  (RewindTo e = 0 \/ 0 < RewindTo e < 40).
Proof.
  split; [vm_compute; reflexivity|].
  apply (CheckCompatible_RewindTo
           (withHomesteadBlock (Some 30) TestChainConfig)
           (withHomesteadBlock (Some 25) TestChainConfig) 40).
  - unfold uint64_modulus. simpl. lia.
  - vm_compute. reflexivity.
Defined.

(** ** A Homestead mismatch *)

Lemma checkCompatible_Homestead (c newcfg : ChainConfig) (head : bigInt) :
  isForkIncompatible (HomesteadBlock c) (HomesteadBlock newcfg) head = true ->
  checkCompatible c newcfg head =
  Some (newCompatError "Homestead fork block"
          (HomesteadBlock c) (HomesteadBlock newcfg)).
Proof. intros H. unfold checkCompatible. rewrite H. reflexivity. Qed.

(** Two passes of the loop when the first error asks for a target at which
    the pass reports the same target again. *)
Lemma CheckCompatible_stable (c newcfg : ChainConfig) (height : Z)
      (e e' : ConfigCompatError) :
  checkCompatible c newcfg (Some height) = Some e ->
  checkCompatible c newcfg (Some (RewindTo e)) = Some e' ->
  RewindTo e' = RewindTo e ->
  CheckCompatible c newcfg height = Some (Some e).
Proof.
  intros H1 H2 Heq. unfold CheckCompatible.
  cbn [CheckCompatible_loop]. rewrite H1, H2, Heq, Z.eqb_refl. reflexivity.
Qed.

(** C1, as stated, fails: with Homestead stored at 0 and rescheduled to 5,
    all other fields equal, the error returned at height 10 does not have
    [RewindTo = 4]. *)
Lemma CheckCompatible_Homestead_0_5_not_4 :
  ~ exists e,
      CheckCompatible TestChainConfig
        (withHomesteadBlock (Some 5) TestChainConfig) 10 = Some (Some e) /\
      RewindTo e = 4.
Proof.
  intros (e & He & Hr). vm_compute in He.
  injection He as <-. discriminate Hr.
Qed.

(** C1, amended.  With Homestead stored at 0 and rescheduled to 5,
    [CheckCompatible] at height 10 returns the Homestead error with
    [RewindTo = 0]: the lower of the two values, 0, is chosen, and a chosen
    value of 0 rewinds to 0.  The other fields do not matter, Homestead
    being the first test. *)
Theorem CheckCompatible_Homestead_0_5 :
  forall stored new : ChainConfig,
    HomesteadBlock stored = Some 0 ->
    HomesteadBlock new = Some 5 ->
    CheckCompatible stored new 10 =
    Some (Some (mkConfigCompatError "Homestead fork block" (Some 0) (Some 5) 0)).
Proof.
  intros stored new Hs Hn.
  assert (Hpass : forall h, 0 <= h ->
            checkCompatible stored new (Some h) =
            Some (mkConfigCompatError "Homestead fork block"
                    (Some 0) (Some 5) 0)).
  { intros h Hh. rewrite checkCompatible_Homestead; rewrite Hs, Hn.
    - reflexivity.
    - unfold isForkIncompatible. rewrite isForked_Some.
      replace (0 <=? h) with true by (symmetry; apply Z.leb_le; exact Hh).
      reflexivity. }
  eapply CheckCompatible_stable.
  - apply Hpass. lia.
  - apply Hpass. simpl. lia.
  - reflexivity.
Qed.

Lemma CheckCompatible_Homestead_0_5_witness :
  CheckCompatible TestChainConfig
    (withHomesteadBlock (Some 5) TestChainConfig) 10 =
  Some (Some (mkConfigCompatError "Homestead fork block" (Some 0) (Some 5) 0)).
Proof.
  apply (CheckCompatible_Homestead_0_5 TestChainConfig
           (withHomesteadBlock (Some 5) TestChainConfig)); reflexivity.
Defined.

(** ** The Petersburg exception *)

Lemma checkCompatible_withPetersburgBlock (c : ChainConfig) (p head : bigInt) :
  checkCompatible c (withPetersburgBlock p c) head =
  if isForkIncompatible (PetersburgBlock c) p head
     && isForkIncompatible (ConstantinopleBlock c) p head
  then Some (newCompatError "Petersburg fork block" (PetersburgBlock c) p)
  else None.
Proof.
  unfold checkCompatible, withPetersburgBlock; cbn [HomesteadBlock DAOForkBlock
    DAOForkSupport EIP150Block EIP155Block EIP158Block ChainID ByzantiumBlock
    ConstantinopleBlock PetersburgBlock IstanbulBlock MuirGlacierBlock].
  rewrite !isForkIncompatible_refl, configNumEqual_refl, eqb_reflx.
  rewrite !andb_false_r. reflexivity.
Qed.

(** C6.  A stored configuration without Petersburg and with Constantinople
    at 0 is compatible, at every height, with the same configuration with
    Petersburg set to 0; in general a Petersburg change is forgiven whenever
    the new Petersburg value is compatible with the stored Constantinople
    value. *)
Theorem CheckCompatible_Petersburg_exception :
  forall (stored : ChainConfig) (height : Z),
    (PetersburgBlock stored = None ->
     ConstantinopleBlock stored = Some 0 ->
     CheckCompatible stored (withPetersburgBlock (Some 0) stored) height
     = Some None) /\
    (forall p : bigInt,
       isForkIncompatible (ConstantinopleBlock stored) p (Some height) = false ->
       CheckCompatible stored (withPetersburgBlock p stored) height
       = Some None).
Proof.
  intros stored height.
  assert (Hgen : forall p : bigInt,
            isForkIncompatible (ConstantinopleBlock stored) p (Some height)
            = false ->
            CheckCompatible stored (withPetersburgBlock p stored) height
            = Some None).
  { intros p Hp. unfold CheckCompatible. cbn [CheckCompatible_loop].
    rewrite checkCompatible_withPetersburgBlock, Hp, andb_false_r.
    reflexivity. }
  split; [|exact Hgen].
  intros _ Hc. apply Hgen. rewrite Hc. apply isForkIncompatible_refl.
Qed.

Lemma CheckCompatible_Petersburg_exception_witness :
  let stored := withPetersburgBlock None TestChainConfig in
  CheckCompatible stored (withPetersburgBlock (Some 0) stored) 7 = Some None /\
  CheckCompatible FlareChainConfig
    (withPetersburgBlock (Some 0) FlareChainConfig) 7 = Some None.
Proof.
  split.
  - apply (proj1 (CheckCompatible_Petersburg_exception
                    (withPetersburgBlock None TestChainConfig) 7));
      reflexivity.
  - apply (proj2 (CheckCompatible_Petersburg_exception FlareChainConfig 7)
             (Some 0)).
    reflexivity.
Defined.

(** ** The chain ID test *)

Lemma checkCompatible_withChainID (c : ChainConfig) (id head : bigInt) :
  checkCompatible c (withChainID id c) head =
  if IsEIP158 c head && negb (configNumEqual (ChainID c) id)
  then Some (newCompatError "EIP158 chain ID" (EIP158Block c) (EIP158Block c))
  else None.
Proof.
  unfold checkCompatible, withChainID; cbn [HomesteadBlock DAOForkBlock
    DAOForkSupport EIP150Block EIP155Block EIP158Block ChainID ByzantiumBlock
    ConstantinopleBlock PetersburgBlock IstanbulBlock MuirGlacierBlock].
  rewrite !isForkIncompatible_refl, eqb_reflx.
  rewrite !andb_false_r. cbn [andb negb].
  destruct (IsEIP158 c head && negb (configNumEqual (ChainID c) id));
    reflexivity.
Qed.

(** The chain ID error is only built by the chain ID test. *)
Lemma checkCompatible_chainID_inv (c newcfg : ChainConfig) (head : bigInt)
      (e : ConfigCompatError) :
  checkCompatible c newcfg head = Some e ->
  What e = "EIP158 chain ID" ->
  IsEIP158 c head = true /\
  configNumEqual (ChainID c) (ChainID newcfg) = false.
Proof.
  unfold checkCompatible. intros H Hw.
  repeat match type of H with
  | (if ?b then _ else _) = Some _ =>
      let Hb := fresh "Hb" in
      destruct b eqn:Hb;
      [ injection H as <-; rewrite What_newCompatError in Hw;
        first [ discriminate Hw
              | apply andb_true_iff in Hb; destruct Hb as [H1 H2];
                apply negb_true_iff in H2; split; assumption ]
      | clear Hb ]
  end.
  discriminate.
Qed.

(** C7.  With EIP158 stored at 0 and the chain ID changed from 1 to 2, all
    other fields equal, [CheckCompatible] at height 100 returns the EIP158
    chain ID error with [RewindTo = 0].  The chain ID is compared only when
    EIP158 is active under the stored configuration at the head: the chain
    ID error implies it, and a changed chain ID alone is no mismatch while
    EIP158 is inactive. *)
Theorem CheckCompatible_chainID :
  forall stored : ChainConfig,
    (EIP158Block stored = Some 0 ->
     ChainID stored = Some 1 ->
     CheckCompatible stored (withChainID (Some 2) stored) 100 =
     Some (Some (mkConfigCompatError "EIP158 chain ID" (Some 0) (Some 0) 0))) /\
    (forall (newcfg : ChainConfig) (head : bigInt) (e : ConfigCompatError),
       checkCompatible stored newcfg head = Some e ->
       What e = "EIP158 chain ID" ->
       IsEIP158 stored head = true /\
       configNumEqual (ChainID stored) (ChainID newcfg) = false) /\
    (forall id head : bigInt,
       IsEIP158 stored head = false ->
       checkCompatible stored (withChainID id stored) head = None).
Proof.
  intros stored. split; [|split].
  - intros He Hc.
    assert (Hpass : forall h, 0 <= h ->
              checkCompatible stored (withChainID (Some 2) stored) (Some h) =
              Some (mkConfigCompatError "EIP158 chain ID"
                      (Some 0) (Some 0) 0)).
    { intros h Hh. rewrite checkCompatible_withChainID.
      unfold IsEIP158. rewrite He, Hc, isForked_Some.
      replace (0 <=? h) with true by (symmetry; apply Z.leb_le; exact Hh).
      reflexivity. }
    eapply CheckCompatible_stable.
    + apply Hpass. lia.
    + apply Hpass. simpl. lia.
    + reflexivity.
  - intros newcfg head e. apply checkCompatible_chainID_inv.
  - intros id head Hf. rewrite checkCompatible_withChainID, Hf. reflexivity.
Qed.

Lemma CheckCompatible_chainID_witness :
  CheckCompatible TestChainConfig (withChainID (Some 2) TestChainConfig) 100 =
  Some (Some (mkConfigCompatError "EIP158 chain ID" (Some 0) (Some 0) 0)) /\
  IsEIP158 TestChainConfig (Some 100) = true /\
  checkCompatible (mkChainConfig (Some 1) None None false None 0 None (Some 50)
                     None None None None None None None None None)
    (withChainID (Some 2)
       (mkChainConfig (Some 1) None None false None 0 None (Some 50)
          None None None None None None None None None)) (Some 49) = None.
Proof.
  split; [|split].
  - apply (proj1 (CheckCompatible_chainID TestChainConfig)); reflexivity.
  - apply (proj1 (proj2 (CheckCompatible_chainID TestChainConfig))
             (withChainID (Some 2) TestChainConfig) (Some 100)
             (mkConfigCompatError "EIP158 chain ID" (Some 0) (Some 0) 0));
      reflexivity.
  - apply (proj2 (proj2 (CheckCompatible_chainID
             (mkChainConfig (Some 1) None None false None 0 None (Some 50)
                None None None None None None None None None)))
             (Some 2) (Some 49)).
    reflexivity.
Defined.

(** ** The fork order walk *)

Lemma advance_effective (lastFork cur : fork) :
  advance lastFork cur = if effective cur then cur else lastFork.
Proof. reflexivity. Qed.

Lemma named_eqb (f : fork) : named f -> (name f =? "")%string = false.
Proof. intros H. apply String.eqb_neq. exact H. Qed.

Lemma orderCheck_active (lastFork cur : fork) :
  named lastFork ->
  orderCheck lastFork cur = None ->
  activeBefore lastFork cur.
Proof.
  intros Hn H X Hf. unfold orderCheck in H.
  rewrite (named_eqb _ Hn) in H. cbn [negb] in H.
  destruct (block cur) as [cb|]; [|discriminate Hf].
  destruct (block lastFork) as [lb|]; [|discriminate H].
  rewrite Cmp_gt in H. destruct (Z.ltb_spec cb lb); [discriminate H|].
  destruct X as [x|]; [|discriminate Hf].
  rewrite isForked_Some in Hf |- *. apply Z.leb_le in Hf. apply Z.leb_le. lia.
Qed.

Lemma forkOrderLoop_active (g : bool) :
  forall (l : list fork) (lastFork : fork),
    named lastFork -> Forall named l ->
    forkOrderLoop g lastFork l = None ->
    forall cur, In cur l -> activeBefore lastFork cur.
Proof.
  induction l as [|f rest IH]; intros lastFork Hn Hl H cur Hin;
    [destruct Hin|].
  cbn [forkOrderLoop] in H.
  destruct (g && nonGenesis f); [discriminate H|].
  destruct (orderCheck lastFork f) eqn:Ho; [discriminate H|].
  pose proof (orderCheck_active _ _ Hn Ho) as Hf.
  inversion Hl as [|? ? Hnf Hrest]; subst.
  destruct Hin as [<- | Hin]; [exact Hf|].
  rewrite advance_effective in H. destruct (effective f).
  - intros X HX. apply Hf. revert X HX. apply (IH f); assumption.
  - apply (IH lastFork); assumption.
Qed.

Lemma forkOrderLoop_app (g : bool) :
  forall (l1 l2 : list fork) (lastFork : fork),
    forkOrderLoop g lastFork (l1 ++ l2) = None ->
    exists lastFork', forkOrderLoop g lastFork' l2 = None.
Proof.
  induction l1 as [|f l1 IH]; intros l2 lastFork H; [eauto|].
  cbn [app forkOrderLoop] in H.
  destruct (g && nonGenesis f); [discriminate H|].
  destruct (orderCheck lastFork f); [discriminate H|].
  apply IH in H. exact H.
Qed.

(** The ordering invariant of one accepted axis. *)
Lemma forkOrderLoop_before (g : bool) (axis : list fork) (lastFork A B : fork) :
  Forall named axis ->
  forkOrderLoop g lastFork axis = None ->
  before axis A B ->
  effective A = true ->
  activeBefore A B.
Proof.
  intros Hnamed H (i & j & Hij & HA & HB) Heff.
  destruct (nth_error_split _ _ HA) as (l1 & l2 & -> & Hlen).
  assert (HinB : In B l2).
  { rewrite nth_error_app2 in HB by lia.
    replace (j - List.length l1)%nat
      with (S (j - List.length l1 - 1)) in HB by lia.
    cbn [nth_error] in HB. apply nth_error_In in HB. exact HB. }
  apply forkOrderLoop_app in H. destruct H as [lastFork' H].
  cbn [forkOrderLoop] in H.
  destruct (g && nonGenesis A); [discriminate H|].
  destruct (orderCheck lastFork' A); [discriminate H|].
  rewrite advance_effective, Heff in H.
  apply Forall_app in Hnamed. destruct Hnamed as [_ Hnamed].
  inversion Hnamed as [|? ? HnA Hn2]; subst.
  apply (forkOrderLoop_active g l2 A HnA Hn2 H B HinB).
Qed.

Lemma heightForks_named (c : ChainConfig) : Forall named (heightForks c).
Proof. unfold heightForks. repeat constructor; discriminate. Qed.

Lemma timestampForks_named (c : ChainConfig) : Forall named (timestampForks c).
Proof. unfold timestampForks. repeat constructor; discriminate. Qed.

Lemma CheckConfigForkOrder_accepted (c : ChainConfig) :
  CheckConfigForkOrder c = None ->
  forkOrderLoop true noFork (heightForks c) = None /\
  forkOrderLoop false noFork (timestampForks c) = None.
Proof.
  unfold CheckConfigForkOrder.
  destruct (forkOrderLoop true noFork (heightForks c));
    [discriminate | auto].
Qed.

(** C2, as stated, fails: [TestChainConfig] is accepted, the DAO fork comes
    before EIP150 on the height axis, EIP150 is active at height 0 and the
    DAO fork is not.  An absent optional fork does not constrain the forks
    after it. *)
Lemma CheckConfigForkOrder_not_all_pairs :
  ~ (forall c : ChainConfig,
       CheckConfigForkOrder c = None ->
       forall axis : list fork,
         axis = heightForks c \/ axis = timestampForks c ->
         forall A B : fork, before axis A B -> activeBefore A B).
Proof.
  intros H.
  specialize (H TestChainConfig eq_refl (heightForks TestChainConfig)
                (or_introl eq_refl)
                (mkFork "daoForkBlock" None true)
                (mkFork "eip150Block" (Some 0) false)).
  assert (Hb : before (heightForks TestChainConfig)
                 (mkFork "daoForkBlock" None true)
                 (mkFork "eip150Block" (Some 0) false)).
  { exists 1%nat, 2%nat. repeat split. lia. }
  specialize (H Hb (Some 0) eq_refl). discriminate H.
Qed.

(** C2, amended.  In a configuration accepted by [CheckConfigForkOrder],
    for forks [A] before [B] on the same axis, [A] being mandatory or
    present (that is, not an absent optional fork: the DAO fork or Muir
    Glacier left nil): wherever [B] is active, [A] is active. *)
Theorem CheckConfigForkOrder_ordering :
  forall c : ChainConfig,
    CheckConfigForkOrder c = None ->
    forall axis : list fork,
      axis = heightForks c \/ axis = timestampForks c ->
      forall A B : fork,
        before axis A B ->
        optional A = false \/ block A <> None ->
        forall X : bigInt,
          isForked (block B) X = true -> isForked (block A) X = true.
Proof.
  intros c Hc axis Haxis A B Hb HA.
  apply CheckConfigForkOrder_accepted in Hc. destruct Hc as [Hh Ht].
  assert (Heff : effective A = true).
  { unfold effective. destruct HA as [-> | HA]; [reflexivity|].
    destruct (block A); [apply orb_true_r | congruence]. }
  destruct Haxis as [-> | ->].
  - exact (forkOrderLoop_before true _ noFork A B
             (heightForks_named c) Hh Hb Heff).
  - exact (forkOrderLoop_before false _ noFork A B
             (timestampForks_named c) Ht Hb Heff).
Qed.

Lemma CheckConfigForkOrder_ordering_witness :
  isForked (ApricotPhase4BlockTimestamp FlareChainConfig) (Some 4102444800)
  = true /\
  isForked (ApricotPhase2BlockTimestamp FlareChainConfig) (Some 4102444800)
  = true.
Proof.
  split; [reflexivity|].
  apply (CheckConfigForkOrder_ordering FlareChainConfig eq_refl
           (timestampForks FlareChainConfig) (or_intror eq_refl)
           (mkFork "apricotPhase2BlockTimestamp" (Some 946684800) false)
           (mkFork "apricotPhase4BlockTimestamp" (Some 4102444800) false)).
  - exists 1%nat, 3%nat. repeat split. lia.
  - left. reflexivity.
  - reflexivity.
Defined.

(** ** Genesis-only height forks *)

Lemma nonGenesis_true (f : fork) :
  nonGenesis f = true <-> exists v, block f = Some v /\ v <> 0.
Proof.
  unfold nonGenesis. destruct (block f) as [b|].
  - rewrite Cmp_eq, negb_true_iff, Z.eqb_neq. split.
    + intros H. exists b. split; [reflexivity | lia].
    + intros (v & [= <-] & Hv). lia.
  - split; [discriminate | intros (v & Hv & _); discriminate Hv].
Qed.

Lemma nonGenesis_false (f : fork) :
  nonGenesis f = false -> block f = None \/ block f = Some 0.
Proof.
  unfold nonGenesis. destruct (block f) as [b|]; [|auto].
  rewrite Cmp_eq, negb_false_iff, Z.eqb_eq. intros <-. auto.
Qed.

(** The height walk rejects a list that holds a non-genesis fork; the error
    is the genesis-only error or a "not enabled" error raised earlier. *)
Lemma forkOrderLoop_nonGenesis :
  forall (l : list fork) (lastFork : fork),
    block lastFork = None \/ block lastFork = Some 0 ->
    (exists f, In f l /\ nonGenesis f = true) ->
    exists e,
      forkOrderLoop true lastFork l = Some e /\
      (e = errNonGenesisForkByHeight \/
       exists lastName curName, e = errNotEnabled lastName curName 0).
Proof.
  induction l as [|cur rest IH]; intros lastFork Hlast (f & Hin & Hf);
    [destruct Hin|].
  cbn [forkOrderLoop andb].
  destruct (nonGenesis cur) eqn:Hcur; [eauto|].
  apply nonGenesis_false in Hcur.
  destruct (orderCheck lastFork cur) as [e|] eqn:Ho.
  - exists e. split; [reflexivity|]. right.
    unfold orderCheck in Ho.
    destruct (negb (name lastFork =? "")%string); [|discriminate Ho].
    destruct Hlast as [Hl | Hl], Hcur as [Hc | Hc]; rewrite Hl, Hc in Ho;
      try discriminate Ho.
    injection Ho as <-. eauto.
  - apply IH.
    + rewrite advance_effective. destruct (effective cur); assumption.
    + destruct Hin as [<- | Hin]; [|eauto].
      destruct Hcur as [Hc | Hc]; unfold nonGenesis in Hf; rewrite Hc in Hf;
        discriminate Hf.
Qed.

(** The error is the genesis-only one when the forks before the offending
    one pass the walk. *)
Lemma forkOrderLoop_first_nonGenesis :
  forall (pre post : list fork) (f lastFork : fork),
    nonGenesis f = true ->
    forkOrderLoop true lastFork pre = None ->
    forkOrderLoop true lastFork (pre ++ f :: post)
    = Some errNonGenesisForkByHeight.
Proof.
  induction pre as [|cur pre IH]; intros post f lastFork Hf Hpre.
  - cbn [app forkOrderLoop andb]. rewrite Hf. reflexivity.
  - cbn [app forkOrderLoop andb] in Hpre |- *.
    destruct (nonGenesis cur); [discriminate Hpre|].
    destruct (orderCheck lastFork cur); [discriminate Hpre|].
    apply IH; assumption.
Qed.

(** An error met in a prefix of the list is the error of the whole walk. *)
Lemma forkOrderLoop_prefix_error (g : bool) :
  forall (pre rest : list fork) (lastFork : fork) (e : ForkOrderError),
    forkOrderLoop g lastFork pre = Some e ->
    forkOrderLoop g lastFork (pre ++ rest) = Some e.
Proof.
  induction pre as [|cur pre IH]; intros rest lastFork e H; [discriminate H|].
  cbn [app forkOrderLoop] in H |- *.
  destruct (g && nonGenesis cur); [exact H|].
  destruct (orderCheck lastFork cur); [exact H|].
  apply IH, H.
Qed.

(** Among forks that are nil or 0 the only error of the walk is the
    "not enabled, but enabled at 0" ordering error. *)
Lemma forkOrderLoop_genesis_error :
  forall (l : list fork) (lastFork : fork) (e : ForkOrderError),
    block lastFork = None \/ block lastFork = Some 0 ->
    (forall g, In g l -> nonGenesis g = false) ->
    forkOrderLoop true lastFork l = Some e ->
    exists lastName curName, e = errNotEnabled lastName curName 0.
Proof.
  induction l as [|cur rest IH]; intros lastFork e Hlast Hall H;
    [discriminate H|].
  cbn [forkOrderLoop andb] in H.
  pose proof (Hall cur (or_introl eq_refl)) as Hcur. rewrite Hcur in H.
  apply nonGenesis_false in Hcur.
  destruct (orderCheck lastFork cur) as [e0|] eqn:Ho.
  - injection H as <-. unfold orderCheck in Ho.
    destruct (negb (name lastFork =? "")%string); [|discriminate Ho].
    destruct Hlast as [Hl | Hl], Hcur as [Hc | Hc]; rewrite Hl, Hc in Ho;
      try discriminate Ho.
    injection Ho as <-. eauto.
  - apply (IH (advance lastFork cur) e); [| |exact H].
    + rewrite advance_effective. destruct (effective cur); assumption.
    + intros g Hin. apply Hall. right. exact Hin.
Qed.

Lemma timestampLoop_inOrder (c : ChainConfig) :
  forkOrderLoop false noFork (timestampForks c) = None <->
  timestampsInOrder c = true.
Proof.
  unfold timestampsInOrder, timestampForks, forkOrderLoop, orderCheck, advance,
    inOrder; cbn [name block optional andb negb orb String.eqb noFork].
  destruct (ApricotPhase1BlockTimestamp c) as [t1|],
           (ApricotPhase2BlockTimestamp c) as [t2|],
           (ApricotPhase3BlockTimestamp c) as [t3|],
           (ApricotPhase4BlockTimestamp c) as [t4|];
    cbn [negb andb orb]; rewrite ?Cmp_gt;
    repeat match goal with
    | |- context [?a <? ?b] => destruct (Z.ltb_spec a b)
    | |- context [?a <=? ?b] => destruct (Z.leb_spec a b)
    end;
    cbn [andb]; split; intros Hacc; try reflexivity; try discriminate Hacc;
    lia.
Qed.

(** C8, as stated, fails: [skippedHomesteadConfig] has a height-axis fork
    at 5, and it is rejected with the "not enabled" ordering error that the
    walk meets first, not with the genesis-only error. *)
Lemma CheckConfigForkOrder_nonGenesis_other_error :
  hasNonGenesisHeightFork skippedHomesteadConfig /\
  CheckConfigForkOrder skippedHomesteadConfig
  = Some (errNotEnabled "homesteadBlock" "eip150Block" 0) /\
  CheckConfigForkOrder skippedHomesteadConfig
  <> Some errNonGenesisForkByHeight.
Proof.
  split; [|split].
  - exists (mkFork "eip155Block" (Some 5) false), 5.
    split; [|split; [reflexivity | discriminate]].
    cbn. tauto.
  - reflexivity.
  - discriminate.
Qed.

(** C8, amended.  [CheckConfigForkOrder] rejects every configuration in
    which some height-axis fork is present with a value other than 0: with
    the genesis-only error when the forks before the first such fork pass
    the walk, and otherwise with the ordering error of the earlier
    violation, that is, the "not enabled, but enabled at 0" error that the
    walk returns on the forks before the first such fork.  The
    timestamp-axis forks may hold any values: with a valid height axis the
    configuration is accepted exactly when the timestamps are in order. *)
Theorem CheckConfigForkOrder_nonGenesis :
  forall c : ChainConfig,
    (hasNonGenesisHeightFork c ->
     exists e,
       CheckConfigForkOrder c = Some e /\
       (e = errNonGenesisForkByHeight \/
        exists lastName curName, e = errNotEnabled lastName curName 0)) /\
    (forall (pre post : list fork) (f : fork),
       heightForks c = (pre ++ f :: post)%list ->
       nonGenesis f = true ->
       forkOrderLoop true noFork pre = None ->
       CheckConfigForkOrder c = Some errNonGenesisForkByHeight) /\
    (forall (pre post : list fork) (f : fork) (e : ForkOrderError),
       heightForks c = (pre ++ f :: post)%list ->
       (forall g, In g pre -> nonGenesis g = false) ->
       nonGenesis f = true ->
       forkOrderLoop true noFork pre = Some e ->
       CheckConfigForkOrder c = Some e /\
       e <> errNonGenesisForkByHeight /\
       exists lastName curName, e = errNotEnabled lastName curName 0) /\
    (forkOrderLoop true noFork (heightForks c) = None ->
     (CheckConfigForkOrder c = None <-> timestampsInOrder c = true)).
Proof.
  intros c. split; [|split; [|split]].
  - intros (f & v & Hin & Hb & Hv).
    destruct (forkOrderLoop_nonGenesis (heightForks c) noFork)
      as (e & He & Hform).
    + left. reflexivity.
    + exists f. split; [exact Hin|]. apply nonGenesis_true. eauto.
    + exists e. unfold CheckConfigForkOrder. rewrite He. auto.
  - intros pre post f Hsplit Hf Hpre. unfold CheckConfigForkOrder.
    rewrite Hsplit, (forkOrderLoop_first_nonGenesis pre post f noFork Hf Hpre).
    reflexivity.
  - intros pre post f e Hsplit Hall Hf Hpre.
    destruct (forkOrderLoop_genesis_error pre noFork e
                (or_introl eq_refl) Hall Hpre) as (ln & cn & ->).
    split; [|split; [discriminate | eauto]].
    unfold CheckConfigForkOrder.
    rewrite Hsplit,
      (forkOrderLoop_prefix_error true pre (f :: post) noFork _ Hpre).
    reflexivity.
  - intros Hh. unfold CheckConfigForkOrder. rewrite Hh.
    apply timestampLoop_inOrder.
Qed.

Lemma CheckConfigForkOrder_nonGenesis_witness :
  (exists e,
     CheckConfigForkOrder skippedHomesteadConfig = Some e /\
     (e = errNonGenesisForkByHeight \/
      exists lastName curName, e = errNotEnabled lastName curName 0)) /\
  CheckConfigForkOrder (withHomesteadBlock (Some 7) TestChainConfig)
  = Some errNonGenesisForkByHeight /\
  (CheckConfigForkOrder skippedHomesteadConfig
   = Some (errNotEnabled "homesteadBlock" "eip150Block" 0) /\
   errNotEnabled "homesteadBlock" "eip150Block" 0
   <> errNonGenesisForkByHeight /\
   exists lastName curName,
     errNotEnabled "homesteadBlock" "eip150Block" 0
     = errNotEnabled lastName curName 0) /\
  (CheckConfigForkOrder FlareChainConfig = None <->
   timestampsInOrder FlareChainConfig = true).
Proof.
  split; [|split; [|split]].
  - apply (proj1 (CheckConfigForkOrder_nonGenesis skippedHomesteadConfig)).
    exists (mkFork "eip155Block" (Some 5) false), 5.
    split; [|split; [reflexivity | discriminate]].
    cbn. tauto.
  - apply (proj1 (proj2 (CheckConfigForkOrder_nonGenesis
                           (withHomesteadBlock (Some 7) TestChainConfig)))
             [] (tl (heightForks (withHomesteadBlock (Some 7) TestChainConfig)))
             (mkFork "homesteadBlock" (Some 7) false));
      reflexivity.
  - apply (proj1 (proj2 (proj2 (CheckConfigForkOrder_nonGenesis
                                  skippedHomesteadConfig)))
             (firstn 3 (heightForks skippedHomesteadConfig))
             (skipn 4 (heightForks skippedHomesteadConfig))
             (mkFork "eip155Block" (Some 5) false)).
    + reflexivity.
    + intros g Hin. cbn in Hin.
      destruct Hin as [<- | [<- | [<- | []]]]; reflexivity.
    + reflexivity.
    + reflexivity.
  - apply (proj2 (proj2 (proj2 (CheckConfigForkOrder_nonGenesis
                                  FlareChainConfig)))).
    reflexivity.
Defined.

(** * Further properties of the code *)

(** ** Activation and comparison *)

(** X1.  [isForked] is monotone in the head: a fork active at a head is
    active at every later head. *)
Theorem isForked_mono :
  forall (s : bigInt) (h h' : Z),
    h <= h' ->
    isForked s (Some h) = true ->
    isForked s (Some h') = true.
Proof.
  intros [s|] h h' Hle H; [|discriminate H].
  rewrite isForked_Some in H |- *. apply Z.leb_le in H. apply Z.leb_le. lia.
Qed.

Lemma isForked_mono_witness : isForked (Some 3) (Some 9) = true.
Proof.
  apply (isForked_mono (Some 3) 4 9); [lia | reflexivity].
Defined.

Lemma isForked_mono_false (s : bigInt) (h h' : Z) :
  h' <= h -> isForked s (Some h) = false -> isForked s (Some h') = false.
Proof.
  intros Hle H. destruct (isForked s (Some h')) eqn:E; [|reflexivity].
  rewrite (isForked_mono s h' h Hle E) in H. discriminate H.
Qed.

Lemma configNumEqual_eq (x y : bigInt) : configNumEqual x y = true <-> x = y.
Proof.
  destruct x as [x|], y as [y|]; simpl; rewrite ?Cmp_eq, ?Z.eqb_eq;
    split; intros H; congruence.
Qed.

Lemma configNumEqual_neq (x y : bigInt) : configNumEqual x y = false <-> x <> y.
Proof.
  rewrite <- configNumEqual_eq. destruct (configNumEqual x y); split;
    congruence.
Qed.

Lemma configNumEqual_sym (x y : bigInt) :
  configNumEqual x y = configNumEqual y x.
Proof.
  destruct (configNumEqual x y) eqn:E1, (configNumEqual y x) eqn:E2;
    try reflexivity.
  - apply configNumEqual_eq in E1. apply configNumEqual_neq in E2. congruence.
  - apply configNumEqual_eq in E2. apply configNumEqual_neq in E1. congruence.
Qed.

(** X2.  [configNumEqual] decides equality of the optional integers: nil is
    equal to nil only, and two present values are equal when their numbers
    are; hence it is reflexive, symmetric and transitive. *)
Theorem configNumEqual_decides :
  forall x y : bigInt,
    (configNumEqual x y = true <-> x = y) /\
    configNumEqual x y = configNumEqual y x.
Proof.
  intros x y. split; [apply configNumEqual_eq | apply configNumEqual_sym].
Qed.

Lemma isForkIncompatible_true (s1 s2 : bigInt) (h : Z) :
  isForkIncompatible s1 s2 (Some h) = true <->
  s1 <> s2 /\ exists v, lowerScheduled s1 s2 = Some v /\ v <= h.
Proof.
  unfold isForkIncompatible.
  rewrite andb_true_iff, negb_true_iff, configNumEqual_neq. split.
  - intros [Hf Hne]. split; [exact Hne|].
    rewrite <- rewindBlock_lowerScheduled. apply rewindBlock_forked, Hf.
  - intros [Hne (v & Hv & Hle)]. split; [|exact Hne].
    destruct s1 as [a|], s2 as [b|]; simpl in Hv; try discriminate Hv;
      injection Hv as <-; rewrite ?isForked_Some; cbn [isForked orb];
      rewrite ?orb_false_r; try (apply Z.leb_le; exact Hle).
    apply orb_true_iff. rewrite !Z.leb_le. lia.
Qed.

(** X3.  [isForkIncompatible s1 s2 head] holds exactly when the two
    schedules differ and the lower of the two scheduled values (an absent
    one not counting) is at most the head; in particular the test is
    symmetric in the two schedules. *)
Theorem isForkIncompatible_lower :
  forall (s1 s2 : bigInt) (h : Z),
    (isForkIncompatible s1 s2 (Some h) = true <->
     s1 <> s2 /\ exists v, lowerScheduled s1 s2 = Some v /\ v <= h) /\
    isForkIncompatible s1 s2 (Some h) = isForkIncompatible s2 s1 (Some h).
Proof.
  intros s1 s2 h. split; [apply isForkIncompatible_true|].
  unfold isForkIncompatible.
  rewrite (orb_comm (isForked s1 (Some h))).
  rewrite (configNumEqual_sym s1 s2). reflexivity.
Qed.

Lemma isForkIncompatible_mono (s1 s2 : bigInt) (h h' : Z) :
  h <= h' ->
  isForkIncompatible s1 s2 (Some h) = true ->
  isForkIncompatible s1 s2 (Some h') = true.
Proof.
  intros Hle H. apply isForkIncompatible_true in H.
  destruct H as [Hne (v & Hv & Hvh)].
  apply isForkIncompatible_true. split; [exact Hne|].
  exists v. split; [exact Hv | lia].
Qed.

(** ** One pass of the compatibility checker *)

(** The twelve tests of [checkCompatible], in the order of the source. *)
Lemma checkCompatible_None (c newcfg : ChainConfig) (head : bigInt) :
  checkCompatible c newcfg head = None <->
  isForkIncompatible (HomesteadBlock c) (HomesteadBlock newcfg) head = false /\
  isForkIncompatible (DAOForkBlock c) (DAOForkBlock newcfg) head = false /\
  IsDAOFork c head
  && negb (Bool.eqb (DAOForkSupport c) (DAOForkSupport newcfg)) = false /\
  isForkIncompatible (EIP150Block c) (EIP150Block newcfg) head = false /\
  isForkIncompatible (EIP155Block c) (EIP155Block newcfg) head = false /\
  isForkIncompatible (EIP158Block c) (EIP158Block newcfg) head = false /\
  IsEIP158 c head && negb (configNumEqual (ChainID c) (ChainID newcfg)) = false /\
  isForkIncompatible (ByzantiumBlock c) (ByzantiumBlock newcfg) head = false /\
  isForkIncompatible (ConstantinopleBlock c) (ConstantinopleBlock newcfg) head
  = false /\
  isForkIncompatible (PetersburgBlock c) (PetersburgBlock newcfg) head
  && isForkIncompatible (ConstantinopleBlock c) (PetersburgBlock newcfg) head
  = false /\
  isForkIncompatible (IstanbulBlock c) (IstanbulBlock newcfg) head = false /\
  isForkIncompatible (MuirGlacierBlock c) (MuirGlacierBlock newcfg) head = false.
Proof.
  unfold checkCompatible. split.
  - intros H.
    repeat match type of H with
    | (if ?b then _ else _) = None =>
        destruct b; [discriminate H | split; [reflexivity|]]
    end.
    destruct (isForkIncompatible (MuirGlacierBlock c)
                (MuirGlacierBlock newcfg) head);
      [discriminate H | reflexivity].
  - intros (H1 & H2 & H3 & H4 & H5 & H6 & H7 & H8 & H9 & H10 & H11 & H12).
    rewrite H1, H2, H3, H4, H5, H6, H7, H8, H9, H10, H11, H12. reflexivity.
Qed.

Lemma andb_mono (a b a' b' : bool) :
  (a = true -> a' = true) -> (b = true -> b' = true) ->
  a' && b' = false -> a && b = false.
Proof. destruct a, b, a', b'; intuition congruence. Qed.

Lemma isForkIncompatible_mono_false (s1 s2 : bigInt) (h h' : Z) :
  h' <= h ->
  isForkIncompatible s1 s2 (Some h) = false ->
  isForkIncompatible s1 s2 (Some h') = false.
Proof.
  intros Hle H. destruct (isForkIncompatible s1 s2 (Some h')) eqn:E;
    [|reflexivity].
  rewrite (isForkIncompatible_mono s1 s2 h' h Hle E) in H. discriminate H.
Qed.

Lemma checkCompatible_None_below (c newcfg : ChainConfig) (h h' : Z) :
  h' <= h ->
  checkCompatible c newcfg (Some h) = None ->
  checkCompatible c newcfg (Some h') = None.
Proof.
  intros Hle H. apply checkCompatible_None in H.
  destruct H as (H1 & H2 & H3 & H4 & H5 & H6 & H7 & H8 & H9 & H10 & H11 & H12).
  apply checkCompatible_None.
  repeat split;
    try (eapply isForkIncompatible_mono_false; [exact Hle | eassumption]).
  - revert H3. apply andb_mono; [|auto].
    unfold IsDAOFork. apply isForked_mono, Hle.
  - revert H7. apply andb_mono; [|auto].
    unfold IsEIP158. apply isForked_mono, Hle.
  - revert H10. apply andb_mono; apply isForkIncompatible_mono, Hle.
Qed.

(** X4.  Compatibility at a head extends downwards: when one pass of
    [checkCompatible] finds no mismatch at a head, it finds none at any
    lower head; equivalently a mismatch found at a head is still found (by
    the same or an earlier test) at every later head. *)
Theorem checkCompatible_downward :
  forall (c newcfg : ChainConfig) (h h' : Z),
    h' <= h ->
    (checkCompatible c newcfg (Some h) = None ->
     checkCompatible c newcfg (Some h') = None) /\
    (checkCompatible c newcfg (Some h') <> None ->
     checkCompatible c newcfg (Some h) <> None).
Proof.
  intros c newcfg h h' Hle. split.
  - apply checkCompatible_None_below, Hle.
  - intros Hsome Hnone. apply Hsome.
    apply (checkCompatible_None_below c newcfg h h' Hle Hnone).
Qed.

Lemma checkCompatible_downward_witness :
  checkCompatible (withHomesteadBlock (Some 30) TestChainConfig)
    (withHomesteadBlock (Some 25) TestChainConfig) (Some 10) = None /\
  checkCompatible (withHomesteadBlock (Some 30) TestChainConfig)
    (withHomesteadBlock (Some 25) TestChainConfig) (Some 40) <> None.
Proof.
  assert (H1 : 10 <= 24) by lia.
  assert (H2 : 25 <= 40) by lia.
  split.
  - apply (proj1 (checkCompatible_downward
                    (withHomesteadBlock (Some 30) TestChainConfig)
                    (withHomesteadBlock (Some 25) TestChainConfig) 24 10 H1)).
    reflexivity.
  - apply (proj2 (checkCompatible_downward
                    (withHomesteadBlock (Some 30) TestChainConfig)
                    (withHomesteadBlock (Some 25) TestChainConfig) 40 25 H2)).
    discriminate.
Defined.

(** ** The result of [CheckCompatible] *)

(** X5.  [CheckCompatible] returns nil exactly when the single pass at the
    given height finds no mismatch: once a first error is recorded, the
    loop can only replace it by another error. *)
Theorem CheckCompatible_nil_iff :
  forall (c newcfg : ChainConfig) (height : Z),
    CheckCompatible c newcfg height = Some None <->
    checkCompatible c newcfg (Some height) = None.
Proof.
  intros c newcfg height. split.
  - intros H. unfold CheckCompatible in H.
    apply (CheckCompatible_loop_exit c newcfg (S (S (Z.to_nat height)))
             height None None) in H; [|intros ? [=]].
    exact (proj2 H).
  - intros H. unfold CheckCompatible. cbn [CheckCompatible_loop].
    rewrite H. reflexivity.
Qed.

(** ** What compatibility guarantees *)

Lemma isForkIncompatible_false_agree (s1 s2 head : bigInt) :
  isForkIncompatible s1 s2 head = false ->
  isForked s1 head = isForked s2 head.
Proof.
  unfold isForkIncompatible. intros H.
  destruct (configNumEqual s1 s2) eqn:E.
  - apply configNumEqual_eq in E. subst. reflexivity.
  - rewrite andb_true_r in H. apply orb_false_iff in H.
    destruct H as [-> ->]. reflexivity.
Qed.

(** X8.  When one pass at head [h] finds no mismatch, the stored and the
    new configuration activate the same forks at every block up to [h]:
    Homestead, DAO, EIP150, EIP155, EIP158, Byzantium, Constantinople,
    Istanbul and Muir Glacier; where the DAO fork is active they agree on the
    DAO support flag, and where EIP158 is active they agree on the chain
    ID.  (Petersburg is left out: its test has the Constantinople
    exception.) *)
Theorem checkCompatible_same_activation :
  forall (c newcfg : ChainConfig) (h num : Z),
    num <= h ->
    checkCompatible c newcfg (Some h) = None ->
    IsHomestead c (Some num) = IsHomestead newcfg (Some num) /\
    IsDAOFork c (Some num) = IsDAOFork newcfg (Some num) /\
    IsEIP150 c (Some num) = IsEIP150 newcfg (Some num) /\
    IsEIP155 c (Some num) = IsEIP155 newcfg (Some num) /\
    IsEIP158 c (Some num) = IsEIP158 newcfg (Some num) /\
    IsByzantium c (Some num) = IsByzantium newcfg (Some num) /\
    IsConstantinople c (Some num) = IsConstantinople newcfg (Some num) /\
    IsIstanbul c (Some num) = IsIstanbul newcfg (Some num) /\
    IsMuirGlacier c (Some num) = IsMuirGlacier newcfg (Some num) /\
    (IsDAOFork c (Some num) = true ->
     DAOForkSupport c = DAOForkSupport newcfg) /\
    (IsEIP158 c (Some num) = true -> ChainID c = ChainID newcfg).
Proof.
  intros c newcfg h num Hle H.
  apply (checkCompatible_None_below c newcfg h num Hle) in H.
  apply checkCompatible_None in H.
  destruct H as (H1 & H2 & H3 & H4 & H5 & H6 & H7 & H8 & H9 & _ & H11 & H12).
  unfold IsHomestead, IsDAOFork, IsEIP150, IsEIP155, IsEIP158, IsByzantium,
    IsConstantinople, IsIstanbul, IsMuirGlacier in *.
  repeat split; try (apply isForkIncompatible_false_agree; assumption).
  - intros Hd. rewrite Hd in H3. cbn [andb] in H3.
    apply negb_false_iff, eqb_prop in H3. exact H3.
  - intros He. rewrite He in H7. cbn [andb] in H7.
    apply negb_false_iff, configNumEqual_eq in H7. exact H7.
Qed.

Lemma checkCompatible_same_activation_witness :
  IsHomestead (withHomesteadBlock (Some 30) TestChainConfig) (Some 20)
  = IsHomestead (withHomesteadBlock (Some 25) TestChainConfig) (Some 20).
Proof.
  assert (H : 20 <= 24) by lia.
  exact (proj1 (checkCompatible_same_activation
                  (withHomesteadBlock (Some 30) TestChainConfig)
                  (withHomesteadBlock (Some 25) TestChainConfig) 24 20 H
                  eq_refl)).
Defined.

(** The Petersburg rule is not covered: a stored configuration with
    Constantinople at 0 and Petersburg nil, and the same with Petersburg at
    100, pass at head 50 and disagree on [IsPetersburg] there. *)
Example checkCompatible_Petersburg_rule_differs :
  let stored := withPetersburgBlock None TestChainConfig in
  let new := withPetersburgBlock (Some 100) TestChainConfig in
  checkCompatible stored new (Some 50) = None /\
  IsPetersburg stored (Some 50) = true /\
  IsPetersburg new (Some 50) = false.
Proof. repeat split. Qed.

Lemma CheckCompatible_loop_ext (c newcfg c' newcfg' : ChainConfig) :
  (forall head, checkCompatible c newcfg head = checkCompatible c' newcfg' head) ->
  forall (fuel : nat) (bhead : Z) (lasterr : option ConfigCompatError),
    CheckCompatible_loop fuel c newcfg bhead lasterr =
    CheckCompatible_loop fuel c' newcfg' bhead lasterr.
Proof.
  intros Hext. induction fuel as [|fuel IH]; intros bhead lasterr;
    [reflexivity|].
  cbn [CheckCompatible_loop]. rewrite Hext.
  destruct (checkCompatible c' newcfg' (Some bhead)) as [err|]; [|reflexivity].
  destruct (match lasterr with
            | Some le => RewindTo err =? RewindTo le
            | None => false
            end); [reflexivity | apply IH].
Qed.

(** X9.  [CheckCompatible] does not look at the Apricot timestamps or at the
    EIP150 hash: changing them in the stored or in the new configuration
    changes no result, so a configuration that differs from the stored one
    only there is reported compatible at every height. *)
Theorem CheckCompatible_ignores_timestamps :
  forall (c newcfg : ChainConfig) (t1 t2 t3 t4 t1' t2' t3' t4' : bigInt)
         (hash hash' : Hash) (height : Z),
    CheckCompatible (withApricotTimestamps t1 t2 t3 t4 hash c)
      (withApricotTimestamps t1' t2' t3' t4' hash' newcfg) height
    = CheckCompatible c newcfg height /\
    CheckCompatible c (withApricotTimestamps t1 t2 t3 t4 hash c) height
    = Some None.
Proof.
  intros. split.
  - unfold CheckCompatible. apply CheckCompatible_loop_ext.
    intros head. reflexivity.
  - unfold CheckCompatible.
    rewrite (CheckCompatible_loop_ext c (withApricotTimestamps t1 t2 t3 t4 hash c)
               c c) by (intros head; reflexivity).
    cbn [CheckCompatible_loop]. rewrite checkCompatible_self. reflexivity.
Qed.

(** ** The lowest conflict *)

Ltac pass_step H B :=
  match type of H with
  | (if ?b then _ else _) = Some _ =>
      destruct b eqn:B; [injection H as <- | ]
  end.

(** A block test that fires at head [a] and not at head [b] asks for a
    rewind target of at least [b]. *)
Lemma rewind_gap_block what (s n : bigInt) (a b : Z) :
  isForkIncompatible s n (Some a) = true ->
  isForkIncompatible s n (Some b) = false ->
  0 <= b -> a < uint64_modulus ->
  b <= RewindTo (newCompatError what s n).
Proof.
  intros Ha Hb Hb0 Ha64.
  apply isForkIncompatible_true in Ha. destruct Ha as [Hne (v & Hv & Hva)].
  assert (Hvb : b < v).
  { destruct (Z.lt_ge_cases b v) as [Hlt|Hge]; [exact Hlt|].
    assert (Ht : isForkIncompatible s n (Some b) = true)
      by (apply isForkIncompatible_true; eauto).
    rewrite Ht in Hb. discriminate Hb. }
  rewrite <- rewindBlock_lowerScheduled in Hv.
  rewrite (RewindTo_newCompatError what s n v Hv) by lia. lia.
Qed.

(** The same for the two tests tied to an active stored fork (DAO support
    flag, chain ID), the block test before them not having fired. *)
Lemma rewind_gap_flag what (s n : bigInt) (a b : Z) :
  isForked s (Some a) = true ->
  isForkIncompatible s n (Some a) = false ->
  isForked s (Some b) = false ->
  0 <= b -> a < uint64_modulus ->
  b <= RewindTo (newCompatError what s n).
Proof.
  intros Ha Hinc Hb Hb0 Ha64.
  unfold isForkIncompatible in Hinc. rewrite Ha in Hinc. cbn [orb andb] in Hinc.
  apply negb_false_iff, configNumEqual_eq in Hinc. subst n.
  destruct s as [v|]; [|discriminate Ha].
  rewrite isForked_Some in Ha, Hb. apply Z.leb_le in Ha. apply Z.leb_gt in Hb.
  assert (Hv : rewindBlock (Some v) (Some v) = Some v).
  { cbn [rewindBlock]. destruct (Cmp v v <? 0); reflexivity. }
  rewrite (RewindTo_newCompatError what _ _ v Hv) by lia. lia.
Qed.

Lemma andb_true_false_l (a b : bool) :
  a && b = false -> b = true -> a = false.
Proof. destruct a, b; cbn; congruence. Qed.

(** An error of any test but the Petersburg one: a head at which the pass
    finds nothing is at most the error's rewind target. *)
Lemma checkCompatible_tight (c newcfg : ChainConfig) (h' h : Z)
      (e' : ConfigCompatError) :
  0 <= h -> h' < uint64_modulus ->
  checkCompatible c newcfg (Some h') = Some e' ->
  What e' <> "Petersburg fork block" ->
  checkCompatible c newcfg (Some h) = None ->
  h <= RewindTo e'.
Proof.
  intros Hh Hh' H Hw Hnone. apply checkCompatible_None in Hnone.
  destruct Hnone
    as (H1 & H2 & H3 & H4 & H5 & H6 & H7 & H8 & H9 & H10 & H11 & H12).
  unfold checkCompatible in H.
  pass_step H A1; [apply (rewind_gap_block _ _ _ h' h); assumption|].
  pass_step H A2; [apply (rewind_gap_block _ _ _ h' h); assumption|].
  pass_step H A3.
  { apply andb_true_iff in A3. destruct A3 as [Af An].
    apply (rewind_gap_flag _ _ _ h' h); try assumption.
    exact (andb_true_false_l _ _ H3 An). }
  pass_step H A4; [apply (rewind_gap_block _ _ _ h' h); assumption|].
  pass_step H A5; [apply (rewind_gap_block _ _ _ h' h); assumption|].
  pass_step H A6; [apply (rewind_gap_block _ _ _ h' h); assumption|].
  pass_step H A7.
  { apply andb_true_iff in A7. destruct A7 as [Af An].
    apply (rewind_gap_flag _ _ _ h' h); try assumption.
    exact (andb_true_false_l _ _ H7 An). }
  pass_step H A8; [apply (rewind_gap_block _ _ _ h' h); assumption|].
  pass_step H A9; [apply (rewind_gap_block _ _ _ h' h); assumption|].
  pass_step H A10; [rewrite What_newCompatError in Hw; congruence|].
  pass_step H A11; [apply (rewind_gap_block _ _ _ h' h); assumption|].
  pass_step H A12; [apply (rewind_gap_block _ _ _ h' h); assumption|].
  discriminate H.
Qed.

(** The Petersburg test fires at every head above one where it fires. *)
Lemma Petersburg_test_mono (pc pn cc : bigInt) (h h' : Z) :
  h' <= h ->
  isForkIncompatible pc pn (Some h') && isForkIncompatible cc pn (Some h') = true ->
  isForkIncompatible pc pn (Some h) && isForkIncompatible cc pn (Some h) = true.
Proof.
  intros Hle H. apply andb_true_iff in H. destruct H as [H1 H2].
  apply andb_true_iff. split; eapply isForkIncompatible_mono; eassumption.
Qed.

(** A pass at [h] above a head [h'] where the Petersburg error is reported:
    its error asks for a target of at least [h'], or is that same error. *)
Lemma checkCompatible_above_Petersburg (c newcfg : ChainConfig) (h' h : Z)
      (e' err : ConfigCompatError) :
  0 <= h' <= h -> h < uint64_modulus ->
  checkCompatible c newcfg (Some h') = Some e' ->
  What e' = "Petersburg fork block" ->
  checkCompatible c newcfg (Some h) = Some err ->
  h' <= RewindTo err \/ err = e'.
Proof.
  intros Hh Hh64 H' Hw H.
  unfold checkCompatible in H'.
  pass_step H' P1; [rewrite What_newCompatError in Hw; discriminate Hw|].
  pass_step H' P2; [rewrite What_newCompatError in Hw; discriminate Hw|].
  pass_step H' P3; [rewrite What_newCompatError in Hw; discriminate Hw|].
  pass_step H' P4; [rewrite What_newCompatError in Hw; discriminate Hw|].
  pass_step H' P5; [rewrite What_newCompatError in Hw; discriminate Hw|].
  pass_step H' P6; [rewrite What_newCompatError in Hw; discriminate Hw|].
  pass_step H' P7; [rewrite What_newCompatError in Hw; discriminate Hw|].
  pass_step H' P8; [rewrite What_newCompatError in Hw; discriminate Hw|].
  pass_step H' P9; [rewrite What_newCompatError in Hw; discriminate Hw|].
  pass_step H' P10;
    [|pass_step H' P11; [rewrite What_newCompatError in Hw; discriminate Hw|];
      pass_step H' P12; [rewrite What_newCompatError in Hw; discriminate Hw|];
      discriminate H'].
  clear Hw.
  unfold checkCompatible in H.
  pass_step H A1;
    [left; apply (rewind_gap_block _ _ _ h h'); (assumption || lia)|].
  pass_step H A2;
    [left; apply (rewind_gap_block _ _ _ h h'); (assumption || lia)|].
  pass_step H A3.
  { left. apply andb_true_iff in A3. destruct A3 as [Af An].
    apply (rewind_gap_flag _ _ _ h h'); try assumption; try lia.
    exact (andb_true_false_l _ _ P3 An). }
  pass_step H A4;
    [left; apply (rewind_gap_block _ _ _ h h'); (assumption || lia)|].
  pass_step H A5;
    [left; apply (rewind_gap_block _ _ _ h h'); (assumption || lia)|].
  pass_step H A6;
    [left; apply (rewind_gap_block _ _ _ h h'); (assumption || lia)|].
  pass_step H A7.
  { left. apply andb_true_iff in A7. destruct A7 as [Af An].
    apply (rewind_gap_flag _ _ _ h h'); try assumption; try lia.
    exact (andb_true_false_l _ _ P7 An). }
  pass_step H A8;
    [left; apply (rewind_gap_block _ _ _ h h'); (assumption || lia)|].
  pass_step H A9;
    [left; apply (rewind_gap_block _ _ _ h h'); (assumption || lia)|].
  pass_step H A10; [right; reflexivity|].
  apply (Petersburg_test_mono _ _ _ h h') in P10; [|lia].
  rewrite P10 in A10. discriminate A10.
Qed.

(** The error returned by the loop: a pass at its rewind target finds
    nothing, unless the target is 0. *)
Lemma CheckCompatible_result_stable (c newcfg : ChainConfig) (height : Z)
      (e : ConfigCompatError) :
  0 <= height < uint64_modulus ->
  CheckCompatible c newcfg height = Some (Some e) ->
  RewindTo e = 0 \/
  (0 < RewindTo e < height /\
   checkCompatible c newcfg (Some (RewindTo e)) = None).
Proof.
  intros Hh H. unfold CheckCompatible in H.
  pose proof (CheckCompatible_loop_RewindTo c newcfg height
                (S (S (Z.to_nat height))) height None e Hh (Z.le_refl _)) as Hr.
  destruct Hr as [Hr|Hr]; [intros ? [=] | exact H | left; exact Hr |].
  apply (CheckCompatible_loop_exit c newcfg (S (S (Z.to_nat height)))
           height None (Some e)) in H; [|intros ? [=]].
  destruct H as [_ Hexit]. unfold exitReason in Hexit.
  destruct (checkCompatible c newcfg (Some (RewindTo e))) as [err|] eqn:He;
    [|right; split; [exact Hr | reflexivity]].
  assert (Hb : 0 <= RewindTo e < uint64_modulus) by lia.
  pose proof (checkCompatible_RewindTo _ _ _ _ Hb He) as Hb'. lia.
Qed.

(** The returned error was reported by a pass at some head up to [height]. *)
Lemma CheckCompatible_loop_reported (c newcfg : ChainConfig) (height : Z) :
  forall (fuel : nat) (bhead : Z) (lasterr : option ConfigCompatError)
         (e : ConfigCompatError),
    0 <= bhead < uint64_modulus -> bhead <= height ->
    (forall le, lasterr = Some le ->
       exists h, 0 <= h <= height /\
                 checkCompatible c newcfg (Some h) = Some le) ->
    CheckCompatible_loop fuel c newcfg bhead lasterr = Some (Some e) ->
    exists h, 0 <= h <= height /\ checkCompatible c newcfg (Some h) = Some e.
Proof.
  induction fuel as [|fuel IH]; intros bhead lasterr e Hb Hle Hlast H;
    [discriminate|].
  cbn [CheckCompatible_loop] in H.
  destruct (checkCompatible c newcfg (Some bhead)) as [err|] eqn:He.
  - pose proof (checkCompatible_RewindTo _ _ _ _ Hb He) as Hr.
    destruct (match lasterr with
              | Some le => RewindTo err =? RewindTo le
              | None => false
              end).
    + injection H as ->. apply Hlast. reflexivity.
    + apply IH in H; [exact H | lia | lia |].
      intros ? [= <-]. exists bhead. split; [lia | exact He].
  - injection H as ->. apply Hlast. reflexivity.
Qed.

(** The loop against a Petersburg error reported at [h']: the head stays at
    or above [h'] until it drops to that error's target or below. *)
Lemma CheckCompatible_loop_Petersburg (c newcfg : ChainConfig) (h' : Z)
      (e' : ConfigCompatError) :
  0 <= h' ->
  checkCompatible c newcfg (Some h') = Some e' ->
  What e' = "Petersburg fork block" ->
  0 <= RewindTo e' ->
  forall (fuel : nat) (bhead : Z) (lasterr : option ConfigCompatError)
         (e : ConfigCompatError),
    0 <= bhead < uint64_modulus ->
    headOfLast bhead lasterr ->
    h' <= bhead \/ bhead <= RewindTo e' ->
    CheckCompatible_loop fuel c newcfg bhead lasterr = Some (Some e) ->
    RewindTo e <= RewindTo e'.
Proof.
  intros Hh' He' Hw Hr'.
  induction fuel as [|fuel IH]; intros bhead lasterr e Hb Hinv Hpos H;
    [discriminate|].
  cbn [CheckCompatible_loop] in H.
  destruct (checkCompatible c newcfg (Some bhead)) as [err|] eqn:He.
  - pose proof (checkCompatible_RewindTo _ _ _ _ Hb He) as Hr.
    assert (Hnext : h' <= RewindTo err \/ RewindTo err <= RewindTo e').
    { destruct Hpos as [Hpos|Hpos]; [|right; lia].
      destruct (checkCompatible_above_Petersburg c newcfg h' bhead e' err)
        as [Hk | ->]; try assumption; lia. }
    destruct lasterr as [le|].
    + pose proof (Hinv le eq_refl) as Hle.
      destruct (Z.eqb_spec (RewindTo err) (RewindTo le)) as [Heq|Hne].
      * injection H as ->. lia.
      * apply IH in H; [exact H | lia | intros ? [= <-]; reflexivity
                        | exact Hnext].
    + apply IH in H; [exact H | lia | intros ? [= <-]; reflexivity
                      | exact Hnext].
  - injection H as ->. pose proof (Hinv e eq_refl) as Hle.
    destruct Hpos as [Hpos|Hpos]; [|lia].
    rewrite (checkCompatible_None_below c newcfg bhead h' Hpos He) in He'.
    discriminate He'.
Qed.

(** X6.  [CheckCompatible] finds the lowest conflict: the error it returns
    for a [uint64] height was reported by a pass at some head up to that
    height, and no pass at any head up to that height reports an error with
    a lower rewind target. *)
Theorem CheckCompatible_lowest_conflict_found :
  forall (c newcfg : ChainConfig) (height : Z) (e : ConfigCompatError),
    0 <= height < uint64_modulus ->
    CheckCompatible c newcfg height = Some (Some e) ->
    (exists h, 0 <= h <= height /\
               checkCompatible c newcfg (Some h) = Some e) /\
    (forall (h' : Z) (e' : ConfigCompatError),
       0 <= h' <= height ->
       checkCompatible c newcfg (Some h') = Some e' ->
       RewindTo e <= RewindTo e').
Proof.
  intros c newcfg height e Hh H. split.
  - unfold CheckCompatible in H.
    apply (CheckCompatible_loop_reported c newcfg height
             (S (S (Z.to_nat height))) height None e);
      [exact Hh | lia | intros ? [=] | exact H].
  - intros h' e' Hh' He'.
    assert (Hb' : 0 <= h' < uint64_modulus) by lia.
    pose proof (checkCompatible_RewindTo _ _ _ _ Hb' He') as Hr'.
    destruct (string_dec (What e') "Petersburg fork block") as [Hw|Hw].
    + unfold CheckCompatible in H.
      apply (CheckCompatible_loop_Petersburg c newcfg h' e' (proj1 Hh') He' Hw)
        with (fuel := S (S (Z.to_nat height))) (bhead := height)
             (lasterr := None);
        [lia | exact Hh | intros ? [=] | left; lia | exact H].
    + destruct (CheckCompatible_result_stable c newcfg height e Hh H)
        as [Hz | [Hpos Hnone]]; [lia|].
      apply (checkCompatible_tight c newcfg h' (RewindTo e) e');
        [lia | lia | exact He' | exact Hw | exact Hnone].
Qed.

Lemma CheckCompatible_lowest_conflict_found_witness :
  let stored := withHomesteadBlock (Some 30) TestChainConfig in
  let new := withHomesteadBlock (Some 25) TestChainConfig in
  let e := mkConfigCompatError "Homestead fork block" (Some 30) (Some 25) 24 in
  (exists h, 0 <= h <= 40 /\ checkCompatible stored new (Some h) = Some e) /\
  (forall (h' : Z) (e' : ConfigCompatError),
     0 <= h' <= 40 ->
     checkCompatible stored new (Some h') = Some e' ->
     RewindTo e <= RewindTo e').
Proof.
  apply (CheckCompatible_lowest_conflict_found
           (withHomesteadBlock (Some 30) TestChainConfig)
           (withHomesteadBlock (Some 25) TestChainConfig) 40).
  - unfold uint64_modulus. simpl. lia.
  - vm_compute. reflexivity.
Defined.

(** X7.  Rewinding resolves the conflict: when the error returned by
    [CheckCompatible] has a rewind target other than 0, the target is below
    the height and [CheckCompatible] at that target returns nil. *)
Theorem CheckCompatible_rewind_resolves :
  forall (c newcfg : ChainConfig) (height : Z) (e : ConfigCompatError),
    0 <= height < uint64_modulus ->
    CheckCompatible c newcfg height = Some (Some e) ->
    RewindTo e <> 0 ->
    RewindTo e < height /\
    CheckCompatible c newcfg (RewindTo e) = Some None.
Proof.
  intros c newcfg height e Hh H Hr.
  destruct (CheckCompatible_result_stable c newcfg height e Hh H)
    as [Hz | [Hpos Hnone]]; [contradiction|].
  split; [lia|].
  unfold CheckCompatible. cbn [CheckCompatible_loop].
  rewrite Hnone. reflexivity.
Qed.

Lemma CheckCompatible_rewind_resolves_witness :
  24 < 40 /\
  CheckCompatible (withHomesteadBlock (Some 30) TestChainConfig)
    (withHomesteadBlock (Some 25) TestChainConfig) 24 = Some None.
Proof.
  apply (CheckCompatible_rewind_resolves
           (withHomesteadBlock (Some 30) TestChainConfig)
           (withHomesteadBlock (Some 25) TestChainConfig) 40
           (mkConfigCompatError "Homestead fork block" (Some 30) (Some 25) 24)).
  - unfold uint64_modulus. simpl. lia.
  - vm_compute. reflexivity.
  - discriminate.
Defined.

(** ** Rules *)

Lemma IsPetersburg_mono (c : ChainConfig) (num num' : Z) :
  num <= num' ->
  IsPetersburg c (Some num) = true -> IsPetersburg c (Some num') = true.
Proof.
  unfold IsPetersburg. intros Hle H.
  apply orb_true_iff in H. apply orb_true_iff.
  destruct H as [H|H].
  - left. exact (isForked_mono _ _ _ Hle H).
  - right. apply andb_true_iff in H. destruct H as [Hn Hc].
    rewrite Hn. exact (isForked_mono _ _ _ Hle Hc).
Qed.

(** X10.  Rules never switch a fork off: every flag set in the rules of a
    block is set in the rules of any block with a height and a timestamp
    at least as large, and the chain ID of the rules is the same. *)
Theorem AvalancheRules_mono :
  forall (c : ChainConfig) (num num' ts ts' : Z),
    num <= num' -> ts <= ts' ->
    RulesLe (AvalancheRules c (Some num) (Some ts))
            (AvalancheRules c (Some num') (Some ts')) /\
    RulesChainID (AvalancheRules c (Some num) (Some ts))
    = RulesChainID (AvalancheRules c (Some num') (Some ts')).
Proof.
  intros c num num' ts ts' Hn Ht. split; [|reflexivity].
  unfold RulesLe, AvalancheRules, rules; cbn [RulesIsHomestead RulesIsEIP150
    RulesIsEIP155 RulesIsEIP158 RulesIsByzantium RulesIsConstantinople
    RulesIsPetersburg RulesIsIstanbul RulesIsApricotPhase1
    RulesIsApricotPhase2 RulesIsApricotPhase3 RulesIsApricotPhase4].
  repeat split;
    first [ apply IsPetersburg_mono; exact Hn
          | apply isForked_mono; exact Hn
          | apply isForked_mono; exact Ht ].
Qed.

Lemma AvalancheRules_mono_witness :
  RulesLe (AvalancheRules FlareChainConfig (Some 5) (Some 946684800))
          (AvalancheRules FlareChainConfig (Some 6) (Some 4102444800)).
Proof.
  assert (H1 : 5 <= 6) by lia.
  assert (H2 : 946684800 <= 4102444800) by lia.
  exact (proj1 (AvalancheRules_mono FlareChainConfig 5 6
                  946684800 4102444800 H1 H2)).
Defined.

Lemma heightForks_before (c : ChainConfig) (i j : nat) (A B : fork) :
  (i < j)%nat ->
  nth_error (heightForks c) i = Some A ->
  nth_error (heightForks c) j = Some B ->
  before (heightForks c) A B.
Proof. intros. exists i, j. auto. Qed.

Lemma timestampForks_before (c : ChainConfig) (i j : nat) (A B : fork) :
  (i < j)%nat ->
  nth_error (timestampForks c) i = Some A ->
  nth_error (timestampForks c) j = Some B ->
  before (timestampForks c) A B.
Proof. intros. exists i, j. auto. Qed.

(** X11.  In a configuration accepted by [CheckConfigForkOrder] the rules
    of every block are nested: each of EIP150, EIP155, EIP158, Byzantium,
    Constantinople, Petersburg and Istanbul is active only if the fork
    before it is (back to Homestead), and each Apricot phase only if the
    phase before it is. *)
Theorem AvalancheRules_nested :
  forall (c : ChainConfig) (blockNum blockTimestamp : bigInt),
    CheckConfigForkOrder c = None ->
    RulesNested (AvalancheRules c blockNum blockTimestamp).
Proof.
  intros c num ts Hc.
  apply CheckConfigForkOrder_accepted in Hc. destruct Hc as [Hh Ht].
  pose proof (fun i j A B Hij HA HB Heff =>
                forkOrderLoop_before true _ noFork A B (heightForks_named c) Hh
                  (heightForks_before c i j A B Hij HA HB) Heff num) as Hord.
  pose proof (fun i j A B Hij HA HB Heff =>
                forkOrderLoop_before false _ noFork A B
                  (timestampForks_named c) Ht
                  (timestampForks_before c i j A B Hij HA HB) Heff ts) as Hts.
  unfold RulesNested, AvalancheRules, rules; cbn [RulesIsHomestead
    RulesIsEIP150 RulesIsEIP155 RulesIsEIP158 RulesIsByzantium
    RulesIsConstantinople RulesIsPetersburg RulesIsIstanbul
    RulesIsApricotPhase1 RulesIsApricotPhase2 RulesIsApricotPhase3
    RulesIsApricotPhase4].
  unfold IsHomestead, IsEIP150, IsEIP155, IsEIP158, IsByzantium,
    IsConstantinople, IsIstanbul, IsPetersburg, IsApricotPhase1,
    IsApricotPhase2, IsApricotPhase3, IsApricotPhase4.
  repeat split; intros H.
  - exact (Hord 0%nat 2%nat _ _ ltac:(lia) eq_refl eq_refl eq_refl H).
  - exact (Hord 2%nat 3%nat _ _ ltac:(lia) eq_refl eq_refl eq_refl H).
  - exact (Hord 3%nat 4%nat _ _ ltac:(lia) eq_refl eq_refl eq_refl H).
  - exact (Hord 4%nat 5%nat _ _ ltac:(lia) eq_refl eq_refl eq_refl H).
  - exact (Hord 5%nat 6%nat _ _ ltac:(lia) eq_refl eq_refl eq_refl H).
  - apply orb_true_iff in H. destruct H as [H|H].
    + exact (Hord 6%nat 7%nat _ _ ltac:(lia) eq_refl eq_refl eq_refl H).
    + apply andb_true_iff in H. exact (proj2 H).
  - apply orb_true_iff. left.
    exact (Hord 7%nat 8%nat _ _ ltac:(lia) eq_refl eq_refl eq_refl H).
  - exact (Hts 0%nat 1%nat _ _ ltac:(lia) eq_refl eq_refl eq_refl H).
  - exact (Hts 1%nat 2%nat _ _ ltac:(lia) eq_refl eq_refl eq_refl H).
  - exact (Hts 2%nat 3%nat _ _ ltac:(lia) eq_refl eq_refl eq_refl H).
Qed.

Lemma AvalancheRules_nested_witness :
  RulesNested (AvalancheRules FlareChainConfig (Some 5) (Some 946684800)).
Proof.
  apply (AvalancheRules_nested FlareChainConfig (Some 5) (Some 946684800)).
  reflexivity.
Defined.

(** ** Accepted configurations *)

Lemma forkOrderLoop_genesis :
  forall (l : list fork) (lastFork : fork),
    forkOrderLoop true lastFork l = None ->
    forall f, In f l -> block f = None \/ block f = Some 0.
Proof.
  induction l as [|cur rest IH]; intros lastFork H f Hin; [destruct Hin|].
  cbn [forkOrderLoop andb] in H.
  destruct (nonGenesis cur) eqn:Hcur; [discriminate H|].
  destruct (orderCheck lastFork cur); [discriminate H|].
  destruct Hin as [<- | Hin].
  - apply nonGenesis_false, Hcur.
  - exact (IH _ H f Hin).
Qed.

Lemma isForked_genesis (b : bigInt) (num : Z) :
  b = None \/ b = Some 0 -> 0 <= num ->
  isForked b (Some num) = isForked b (Some 0).
Proof.
  intros [-> | ->] Hnum; [reflexivity|].
  rewrite !isForked_Some. apply Z.leb_le in Hnum. rewrite Hnum. reflexivity.
Qed.

(** X12.  In a configuration accepted by [CheckConfigForkOrder] the
    height-axis rules do not depend on the block: [rules] at any
    non-negative block number is [rules] at block 0, and [AvalancheRules]
    varies with the timestamp only. *)
Theorem rules_genesis :
  forall (c : ChainConfig) (num : Z) (blockTimestamp : bigInt),
    CheckConfigForkOrder c = None ->
    0 <= num ->
    rules c (Some num) = rules c (Some 0) /\
    AvalancheRules c (Some num) blockTimestamp
    = AvalancheRules c (Some 0) blockTimestamp.
Proof.
  intros c num ts Hc Hnum.
  apply CheckConfigForkOrder_accepted in Hc. destruct Hc as [Hh _].
  pose proof (forkOrderLoop_genesis _ _ Hh) as Hg.
  assert (Hr : rules c (Some num) = rules c (Some 0)).
  { unfold rules, IsHomestead, IsEIP150, IsEIP155, IsEIP158, IsByzantium,
      IsConstantinople, IsPetersburg, IsIstanbul.
    rewrite (isForked_genesis (HomesteadBlock c) num
               (Hg (mkFork "homesteadBlock" (HomesteadBlock c) false)
                   ltac:(cbn; tauto)) Hnum).
    rewrite (isForked_genesis (EIP150Block c) num
               (Hg (mkFork "eip150Block" (EIP150Block c) false)
                   ltac:(cbn; tauto)) Hnum).
    rewrite (isForked_genesis (EIP155Block c) num
               (Hg (mkFork "eip155Block" (EIP155Block c) false)
                   ltac:(cbn; tauto)) Hnum).
    rewrite (isForked_genesis (EIP158Block c) num
               (Hg (mkFork "eip158Block" (EIP158Block c) false)
                   ltac:(cbn; tauto)) Hnum).
    rewrite (isForked_genesis (ByzantiumBlock c) num
               (Hg (mkFork "byzantiumBlock" (ByzantiumBlock c) false)
                   ltac:(cbn; tauto)) Hnum).
    rewrite (isForked_genesis (ConstantinopleBlock c) num
               (Hg (mkFork "constantinopleBlock" (ConstantinopleBlock c) false)
                   ltac:(cbn; tauto)) Hnum).
    rewrite (isForked_genesis (PetersburgBlock c) num
               (Hg (mkFork "petersburgBlock" (PetersburgBlock c) false)
                   ltac:(cbn; tauto)) Hnum).
    rewrite (isForked_genesis (IstanbulBlock c) num
               (Hg (mkFork "istanbulBlock" (IstanbulBlock c) false)
                   ltac:(cbn; tauto)) Hnum).
    reflexivity. }
  split; [exact Hr|]. unfold AvalancheRules. rewrite Hr. reflexivity.
Qed.

Lemma rules_genesis_witness :
  rules FlareChainConfig (Some 1000) = rules FlareChainConfig (Some 0) /\
  AvalancheRules FlareChainConfig (Some 1000) (Some 946684800)
  = AvalancheRules FlareChainConfig (Some 0) (Some 946684800).
Proof.
  apply (rules_genesis FlareChainConfig 1000 (Some 946684800));
    [reflexivity | lia].
Defined.

Lemma orderCheck_complete (lastFork cur : fork) :
  name lastFork = "" \/ activeBefore lastFork cur ->
  orderCheck lastFork cur = None.
Proof.
  intros H. unfold orderCheck.
  destruct (String.eqb_spec (name lastFork) "") as [_|Hn]; [reflexivity|].
  destruct H as [H|H]; [contradiction|]. cbn [negb].
  destruct (block cur) as [cb|] eqn:Hc.
  - assert (Hcur : isForked (block cur) (Some cb) = true)
      by (rewrite Hc, isForked_Some; apply Z.leb_refl).
    apply H in Hcur.
    destruct (block lastFork) as [lb|]; [|discriminate Hcur].
    rewrite isForked_Some in Hcur. apply Z.leb_le in Hcur.
    rewrite Cmp_gt. destruct (Z.ltb_spec cb lb); [lia | reflexivity].
  - destruct (block lastFork); reflexivity.
Qed.

Lemma before_cons_head (cur B : fork) (rest : list fork) :
  In B rest -> before (cur :: rest) cur B.
Proof.
  intros Hin. apply In_nth_error in Hin. destruct Hin as [j Hj].
  exists 0%nat, (S j). repeat split; [lia | exact Hj].
Qed.

Lemma before_cons_tail (cur A B : fork) (rest : list fork) :
  before rest A B -> before (cur :: rest) A B.
Proof.
  intros (i & j & Hij & HA & HB). exists (S i), (S j).
  repeat split; [lia | exact HA | exact HB].
Qed.

(** The walk accepts a list whose forks satisfy the genesis-only rule (when
    it applies) and the ordering invariant. *)
Lemma forkOrderLoop_complete (g : bool) :
  forall (l : list fork) (lastFork : fork),
    (g = true -> forall f, In f l -> block f = None \/ block f = Some 0) ->
    (name lastFork = "" \/ forall f, In f l -> activeBefore lastFork f) ->
    (forall A B, before l A B -> effective A = true -> activeBefore A B) ->
    forkOrderLoop g lastFork l = None.
Proof.
  induction l as [|cur rest IH]; intros lastFork Hgen Hlast Hpairs;
    [reflexivity|].
  cbn [forkOrderLoop].
  assert (Hng : g && nonGenesis cur = false).
  { destruct g; [|reflexivity]. cbn [andb].
    destruct (nonGenesis cur) eqn:E; [|reflexivity].
    apply nonGenesis_true in E. destruct E as (v & Hv & Hv0).
    destruct (Hgen eq_refl cur (or_introl eq_refl)) as [Hn|Hn];
      congruence. }
  rewrite Hng.
  rewrite orderCheck_complete
    by (destruct Hlast as [Hl|Hl]; [left; exact Hl | right; apply Hl; left;
                                                    reflexivity]).
  apply IH.
  - intros Hg f Hin. apply (Hgen Hg). right. exact Hin.
  - rewrite advance_effective. destruct (effective cur) eqn:Heff.
    + right. intros f Hin. apply Hpairs; [|exact Heff].
      apply before_cons_head, Hin.
    + destruct Hlast as [Hl|Hl]; [left; exact Hl|].
      right. intros f Hin. apply Hl. right. exact Hin.
  - intros A B Hb. apply Hpairs. apply before_cons_tail, Hb.
Qed.

(** X13.  [CheckConfigForkOrder] accepts exactly the configurations in which
    every height-axis fork is nil or 0 and, on each axis, a fork that is
    mandatory or present is active wherever a fork after it is active. *)
Theorem CheckConfigForkOrder_accepts_iff :
  forall c : ChainConfig,
    CheckConfigForkOrder c = None <->
    (forall f, In f (heightForks c) -> block f = None \/ block f = Some 0) /\
    (forall A B, before (heightForks c) A B -> effective A = true ->
                 activeBefore A B) /\
    (forall A B, before (timestampForks c) A B -> effective A = true ->
                 activeBefore A B).
Proof.
  intros c. split.
  - intros Hc. apply CheckConfigForkOrder_accepted in Hc.
    destruct Hc as [Hh Ht]. split; [|split].
    + exact (forkOrderLoop_genesis _ _ Hh).
    + intros A B Hb Heff.
      exact (forkOrderLoop_before true _ noFork A B
               (heightForks_named c) Hh Hb Heff).
    + intros A B Hb Heff.
      exact (forkOrderLoop_before false _ noFork A B
               (timestampForks_named c) Ht Hb Heff).
  - intros (Hgen & Hh & Ht). unfold CheckConfigForkOrder.
    rewrite (forkOrderLoop_complete true (heightForks c) noFork);
      [| intros _; exact Hgen | left; reflexivity | exact Hh].
    apply forkOrderLoop_complete;
      [discriminate | left; reflexivity | exact Ht].
Qed.

Lemma CheckConfigForkOrder_accepts_iff_witness :
  (forall f, In f (heightForks FlareChainConfig) ->
             block f = None \/ block f = Some 0) /\
  (forall A B, before (heightForks FlareChainConfig) A B ->
               effective A = true -> activeBefore A B) /\
  (forall A B, before (timestampForks FlareChainConfig) A B ->
               effective A = true -> activeBefore A B).
Proof.
  apply (proj1 (CheckConfigForkOrder_accepts_iff FlareChainConfig)).
  reflexivity.
Defined.

(** ** Valid configurations only conflict at genesis *)

(** Every error of a pass carries the blocks of one height-axis fork of the
    stored and of the new configuration. *)
Lemma checkCompatible_blocks (c newcfg : ChainConfig) (head : bigInt)
      (e : ConfigCompatError) :
  checkCompatible c newcfg head = Some e ->
  exists what f f',
    In f (heightForks c) /\ In f' (heightForks newcfg) /\
    e = newCompatError what (block f) (block f').
Proof.
  unfold checkCompatible. intros H.
  pass_step H A1.
  { exists "Homestead fork block", (mkFork "homesteadBlock" (HomesteadBlock c) false),
      (mkFork "homesteadBlock" (HomesteadBlock newcfg) false).
    cbn. tauto. }
  pass_step H A2.
  { exists "DAO fork block", (mkFork "daoForkBlock" (DAOForkBlock c) true),
      (mkFork "daoForkBlock" (DAOForkBlock newcfg) true).
    cbn. tauto. }
  pass_step H A3.
  { exists "DAO fork support flag", (mkFork "daoForkBlock" (DAOForkBlock c) true),
      (mkFork "daoForkBlock" (DAOForkBlock newcfg) true).
    cbn. tauto. }
  pass_step H A4.
  { exists "EIP150 fork block", (mkFork "eip150Block" (EIP150Block c) false),
      (mkFork "eip150Block" (EIP150Block newcfg) false).
    cbn. tauto. }
  pass_step H A5.
  { exists "EIP155 fork block", (mkFork "eip155Block" (EIP155Block c) false),
      (mkFork "eip155Block" (EIP155Block newcfg) false).
    cbn. tauto. }
  pass_step H A6.
  { exists "EIP158 fork block", (mkFork "eip158Block" (EIP158Block c) false),
      (mkFork "eip158Block" (EIP158Block newcfg) false).
    cbn. tauto. }
  pass_step H A7.
  { exists "EIP158 chain ID", (mkFork "eip158Block" (EIP158Block c) false),
      (mkFork "eip158Block" (EIP158Block newcfg) false).
    cbn. tauto. }
  pass_step H A8.
  { exists "Byzantium fork block",
      (mkFork "byzantiumBlock" (ByzantiumBlock c) false),
      (mkFork "byzantiumBlock" (ByzantiumBlock newcfg) false).
    cbn. tauto. }
  pass_step H A9.
  { exists "Constantinople fork block",
      (mkFork "constantinopleBlock" (ConstantinopleBlock c) false),
      (mkFork "constantinopleBlock" (ConstantinopleBlock newcfg) false).
    cbn. tauto. }
  pass_step H A10.
  { exists "Petersburg fork block",
      (mkFork "petersburgBlock" (PetersburgBlock c) false),
      (mkFork "petersburgBlock" (PetersburgBlock newcfg) false).
    cbn. tauto. }
  pass_step H A11.
  { exists "Istanbul fork block",
      (mkFork "istanbulBlock" (IstanbulBlock c) false),
      (mkFork "istanbulBlock" (IstanbulBlock newcfg) false).
    cbn. tauto. }
  pass_step H A12.
  { exists "Muir Glacier fork block",
      (mkFork "muirGlacierBlock" (MuirGlacierBlock c) true),
      (mkFork "muirGlacierBlock" (MuirGlacierBlock newcfg) true).
    cbn. tauto. }
  discriminate H.
Qed.

Lemma CheckCompatible_loop_all (c newcfg : ChainConfig)
      (P : ConfigCompatError -> Prop) :
  (forall h err, checkCompatible c newcfg (Some h) = Some err -> P err) ->
  forall (fuel : nat) (bhead : Z) (lasterr : option ConfigCompatError)
         (e : ConfigCompatError),
    (forall le, lasterr = Some le -> P le) ->
    CheckCompatible_loop fuel c newcfg bhead lasterr = Some (Some e) ->
    P e.
Proof.
  intros Hpass. induction fuel as [|fuel IH]; intros bhead lasterr e Hlast H;
    [discriminate|].
  cbn [CheckCompatible_loop] in H.
  destruct (checkCompatible c newcfg (Some bhead)) as [err|] eqn:He.
  - destruct (match lasterr with
              | Some le => RewindTo err =? RewindTo le
              | None => false
              end).
    + injection H as ->. apply Hlast. reflexivity.
    + apply IH in H; [exact H|]. intros ? [= <-]. exact (Hpass _ _ He).
  - injection H as ->. apply Hlast. reflexivity.
Qed.

(** X14.  Between two configurations that [CheckConfigForkOrder] accepts, a
    conflict can only be resolved at genesis: every error returned by
    [CheckCompatible] has [RewindTo = 0]. *)
Theorem CheckCompatible_accepted_rewinds_to_genesis :
  forall (c newcfg : ChainConfig) (height : Z) (e : ConfigCompatError),
    CheckConfigForkOrder c = None ->
    CheckConfigForkOrder newcfg = None ->
    CheckCompatible c newcfg height = Some (Some e) ->
    RewindTo e = 0.
Proof.
  intros c newcfg height e Hc Hn H.
  apply CheckConfigForkOrder_accepted in Hc, Hn.
  pose proof (forkOrderLoop_genesis _ _ (proj1 Hc)) as Hgc.
  pose proof (forkOrderLoop_genesis _ _ (proj1 Hn)) as Hgn.
  unfold CheckCompatible in H.
  apply (CheckCompatible_loop_all c newcfg (fun e => RewindTo e = 0))
    with (fuel := S (S (Z.to_nat height))) (bhead := height) (lasterr := None);
    [|intros ? [=] | exact H].
  intros h err Herr.
  destruct (checkCompatible_blocks _ _ _ _ Herr)
    as (what & f & f' & Hf & Hf' & ->).
  destruct (Hgc f Hf) as [-> | ->], (Hgn f' Hf') as [-> | ->]; reflexivity.
Qed.

Lemma CheckCompatible_accepted_rewinds_to_genesis_witness :
  RewindTo (mkConfigCompatError "DAO fork block" None (Some 0) 0) = 0.
Proof.
  apply (CheckCompatible_accepted_rewinds_to_genesis
           TestChainConfig FlareChainConfig 100
           (mkConfigCompatError "DAO fork block" None (Some 0) 0));
    reflexivity.
Defined.

(** ** Edge cases of the rules *)

(** X15.  [AvalancheRules] never leaves the chain ID nil: it is the chain ID
    of the configuration, or 0 when that is nil.  With a nil block number
    and a nil timestamp no fork flag is set, whatever the configuration. *)
Theorem AvalancheRules_edge :
  forall (c : ChainConfig) (blockNum blockTimestamp : bigInt),
    RulesChainID (AvalancheRules c blockNum blockTimestamp) <> None /\
    (forall id, ChainID c = Some id ->
       RulesChainID (AvalancheRules c blockNum blockTimestamp) = Some id) /\
    (ChainID c = None ->
     RulesChainID (AvalancheRules c blockNum blockTimestamp) = Some 0) /\
    AvalancheRules c None None
    = mkRules (RulesChainID (AvalancheRules c blockNum blockTimestamp))
        false false false false false false false false
        false false false false.
Proof.
  intros c num ts.
  unfold AvalancheRules, rules, IsHomestead, IsEIP150, IsEIP155, IsEIP158,
    IsByzantium, IsConstantinople, IsPetersburg, IsIstanbul, IsApricotPhase1,
    IsApricotPhase2, IsApricotPhase3, IsApricotPhase4; cbn [RulesChainID
    RulesIsHomestead RulesIsEIP150 RulesIsEIP155 RulesIsEIP158
    RulesIsByzantium RulesIsConstantinople RulesIsPetersburg RulesIsIstanbul].
  rewrite !isForked_nil_r. rewrite andb_false_r. cbn [orb].
  repeat split.
  - discriminate.
  - intros id ->. reflexivity.
  - intros ->. reflexivity.
Qed.

Lemma AvalancheRules_edge_witness :
  RulesChainID (AvalancheRules TestChainConfig (Some 3) None) = Some 1 /\
  RulesChainID (AvalancheRules (withChainID None TestChainConfig) None None)
  = Some 0.
Proof.
  split.
  - apply (proj1 (proj2 (AvalancheRules_edge TestChainConfig (Some 3) None)) 1).
    reflexivity.
  - apply (proj1 (proj2 (proj2 (AvalancheRules_edge
                                  (withChainID None TestChainConfig)
                                  None None)))).
    reflexivity.
Defined.
